(** * Othello-World: the rules engine, the turn resolver and the CLI parser

    A shallow embedding of [components.py], [flask_engine.py] and
    [game_engine.py], and the properties of the engine proved over it.

    Conventions of the embedding.
    - A Python [int] is a [Z]; a length or a count is a [nat].
    - A Python [str] is a [string] whose characters are read as code points
      below 256.  [upper] is embedded on the ASCII letters only.
    - A board is a list of rows, each a list of cell strings.  The rows are
      distinct list objects, as [initialise_board] and [json.load] build them.
    - An exception is the outcome [Raise]; the only loop that is not a [for]
      over a finite sequence (the walk of [_discs_to_flip]) takes fuel, and
      running out of it is the separate outcome [OutOfFuel], which
      [discs_to_flip_fuel_enough] shows never to occur.
    - A function that mutates the board returns the new board; a call that
      raises is described by its exception alone. *)

From Stdlib Require Import ZArith Lia Ascii String.
From stdpp Require Import base list strings pretty.

Local Open Scope Z_scope.

(** ** Outcomes of a call *)

Inductive exn : Type :=
  | IndexError
  | ValueError (msg : string).

Inductive result (A : Type) : Type :=
  | Ok (a : A)
  | Raise (e : exn)
  | OutOfFuel.

Arguments Ok {A} a.
Arguments Raise {A} e.
Arguments OutOfFuel {A}.

(** Sequencing: the first call that does not return ends the computation. *)
#[global] Instance result_bind : MBind result := λ A B k r,
  match r with
  | Ok a => k a
  | Raise e => Raise e
  | OutOfFuel => OutOfFuel
  end.

(** ** Python built-ins used by the sources *)

Module Py.

Definition len {A : Type} (l : list A) : Z := Z.of_nat (length l).

(** [range(lo, hi)] *)
Definition range (lo hi : Z) : list Z :=
  map (fun i : nat => lo + Z.of_nat i) (seq 0 (Z.to_nat (hi - lo))).

(** The position a subscript [i] denotes in a sequence of [n] items:
    negative subscripts count from the end. *)
Definition index (n : nat) (i : Z) : option nat :=
  if (0 <=? i) && (i <? Z.of_nat n) then Some (Z.to_nat i)
  else if (- Z.of_nat n <=? i) && (i <? 0) then Some (Z.to_nat (i + Z.of_nat n))
  else None.

(** [l[i]] *)
Definition getitem {A : Type} (l : list A) (i : Z) : result A :=
  match index (length l) i with
  | Some k => match l !! k with Some a => Ok a | None => Raise IndexError end
  | None => Raise IndexError
  end.

(** [l[i] = v] *)
Definition setitem {A : Type} (l : list A) (i : Z) (v : A) : result (list A) :=
  match index (length l) i with
  | Some k => Ok (<[k := v]> l)
  | None => Raise IndexError
  end.

(** [str.isspace] on one character. *)
Definition isspace (c : ascii) : bool :=
  let n := Z.of_nat (nat_of_ascii c) in
  ((9 <=? n) && (n <=? 13)) || ((28 <=? n) && (n <=? 32))
  || (n =? 133) || (n =? 160).

Fixpoint lstrip (s : string) : string :=
  match s with
  | EmptyString => EmptyString
  | String c s' => if isspace c then lstrip s' else s
  end.

Fixpoint rstrip (s : string) : string :=
  match s with
  | EmptyString => EmptyString
  | String c s' =>
      let r := rstrip s' in
      if isspace c && String.eqb r EmptyString then EmptyString
      else String c r
  end.

(** [s.strip()] *)
Definition strip (s : string) : string := rstrip (lstrip s).

(** [s.replace(c, "")] for a one-character [c]. *)
Fixpoint remove_char (c : ascii) (s : string) : string :=
  match s with
  | EmptyString => EmptyString
  | String d s' =>
      if Ascii.eqb c d then remove_char c s' else String d (remove_char c s')
  end.

Definition upper_char (c : ascii) : ascii :=
  let n := nat_of_ascii c in
  if ((97 <=? n) && (n <=? 122))%nat then ascii_of_nat (n - 32) else c.

(** [s.upper()] *)
Fixpoint upper (s : string) : string :=
  match s with
  | EmptyString => EmptyString
  | String c s' => String (upper_char c) (upper s')
  end.

(** [ord(c)] *)
Definition ord (c : ascii) : Z := Z.of_nat (nat_of_ascii c).

(** [a <= c <= b] on one-character strings. *)
Definition char_between (a c b : ascii) : bool :=
  (ord a <=? ord c) && (ord c <=? ord b).

(** The whitespace [int()] skips around a literal. *)
Definition int_space (c : ascii) : bool :=
  let n := ord c in
  ((9 <=? n) && (n <=? 13)) || (n =? 32) || (n =? 133) || (n =? 160).

Fixpoint int_lskip (s : string) : string :=
  match s with
  | EmptyString => EmptyString
  | String c s' => if int_space c then int_lskip s' else s
  end.

Fixpoint int_rskip (s : string) : string :=
  match s with
  | EmptyString => EmptyString
  | String c s' =>
      let r := int_rskip s' in
      if int_space c && String.eqb r EmptyString then EmptyString
      else String c r
  end.

Definition digit_value (c : ascii) : option Z :=
  let n := ord c in
  if (48 <=? n) && (n <=? 57) then Some (n - 48) else None.

(** The digits of a decimal literal, most significant first; a single
    underscore may separate two digits.  [prev] tells whether the previous
    character was a digit. *)
Fixpoint int_digits (s : string) (prev : bool) (acc : Z) : option Z :=
  match s with
  | EmptyString => if prev then Some acc else None
  | String c s' =>
      match digit_value c with
      | Some d => int_digits s' true (10 * acc + d)
      | None =>
          if Ascii.eqb c "_" && prev then int_digits s' false acc else None
      end
  end.

Definition invalid_literal : string := "invalid literal for int() with base 10".

(** [int(s)] *)
Definition int (s : string) : result Z :=
  let body := int_rskip (int_lskip s) in
  let parsed :=
    match body with
    | String "-" rest => option_map Z.opp (int_digits rest false 0)
    | String "+" rest => int_digits rest false 0
    | _ => int_digits body false 0
    end in
  match parsed with
  | Some n => Ok n
  | None => Raise (ValueError invalid_literal)
  end.

Definition lower_char (c : ascii) : ascii :=
  let n := nat_of_ascii c in
  if ((65 <=? n) && (n <=? 90))%nat then ascii_of_nat (n + 32) else c.

(** [s.lower()], on the ASCII letters as [upper] is. *)
Fixpoint lower (s : string) : string :=
  match s with
  | EmptyString => EmptyString
  | String c s' => String (lower_char c) (lower s')
  end.

End Py.

(** ** components.py *)

Module Components.

Abbreviation board := (list (list string)).

Definition BOARD_SIZE_DEFAULT : Z := 8.

Definition EMPTY : string := "None ".
Definition BLACK : string := "Black".
Definition WHITE : string := "White".

Definition DIRECTIONS : list (Z * Z) :=
  [ (-1, -1); (0, -1); (1, -1);
    (-1,  0);          (1,  0);
    (-1,  1); (0,  1); (1,  1) ].

(** [board[y][x]] *)
Definition get_cell (b : board) (x y : Z) : result string :=
  row ← Py.getitem b y; Py.getitem row x.

(** [board[y][x] = v] *)
Definition set_cell (b : board) (x y : Z) (v : string) : result board :=
  row ← Py.getitem b y;
  row' ← Py.setitem row x v;
  Py.setitem b y row'.

Definition initialise_board (size : Z) : result board :=
  let b0 := replicate (Z.to_nat size) (replicate (Z.to_nat size) EMPTY) in
  let mid1 := size / 2 - 1 in
  let mid2 := size / 2 in
  b1 ← set_cell b0 mid1 mid1 WHITE;
  b2 ← set_cell b1 mid2 mid2 WHITE;
  b3 ← set_cell b2 mid2 mid1 BLACK;
  set_cell b3 mid1 mid2 BLACK.

(** [0 <= x < size and 0 <= y < size] *)
Definition in_bounds (size x y : Z) : bool :=
  (0 <=? x) && (x <? size) && ((0 <=? y) && (y <? size)).

(** The [while] loop of [_discs_to_flip] in one direction, from the cell
    [(cx, cy)] with the opponent cells [line] collected so far.  It returns
    what the direction adds to [flips]. *)
Fixpoint walk (fuel : nat) (b : board) (size : Z) (me other : string)
    (dx dy cx cy : Z) (line : list (Z * Z)) : result (list (Z * Z)) :=
  match fuel with
  | O => OutOfFuel
  | S fuel' =>
      if in_bounds size cx cy then
        c ← get_cell b cx cy;
        let cell := Py.strip c in
        if String.eqb cell other then
          walk fuel' b size me other dx dy (cx + dx) (cy + dy)
            (line ++ [(cx, cy)])
        else if String.eqb cell me then
          Ok (match line with [] => [] | _ :: _ => line end)
        else Ok []
      else Ok []
  end.

(** The [for] loop over the directions, extending [flips]. *)
Fixpoint walk_all (b : board) (size : Z) (me other : string) (x0 y0 : Z)
    (dirs : list (Z * Z)) (flips : list (Z * Z)) : result (list (Z * Z)) :=
  match dirs with
  | [] => Ok flips
  | (dx, dy) :: dirs' =>
      line ← walk (Z.to_nat size) b size me other dx dy (x0 + dx) (y0 + dy) [];
      walk_all b size me other x0 y0 dirs' (flips ++ line)
  end.

Definition _discs_to_flip (b : board) (colour : string) (x0 y0 : Z)
    : result (list (Z * Z)) :=
  let size := Py.len b in
  if negb (in_bounds size x0 y0) then Ok []
  else
    c ← get_cell b x0 y0;
    if negb (String.eqb (Py.strip c) "None") then Ok []
    else
      let me := Py.strip colour in
      if negb (String.eqb me "Black" || String.eqb me "White") then Ok []
      else
        let other := if String.eqb me "Black" then "White" else "Black" in
        walk_all b size me other x0 y0 DIRECTIONS [].

Definition legal_move (colour : string) (coord : Z * Z) (b : board)
    : result bool :=
  let '(x, y) := coord in
  let x0 := x - 1 in
  let y0 := y - 1 in
  if negb (in_bounds (Py.len b) x0 y0) then Ok false
  else
    flips ← _discs_to_flip b colour x0 y0;
    Ok (0 <? Py.len flips).

(** The [for] loop of [apply_move] over the flipped cells. *)
Fixpoint set_cells (b : board) (cells : list (Z * Z)) (piece : string)
    : result board :=
  match cells with
  | [] => Ok b
  | (fx, fy) :: cells' =>
      b' ← set_cell b fx fy piece;
      set_cells b' cells' piece
  end.

(** Returns the number of flips and the board after the call. *)
Definition apply_move (colour : string) (coord : Z * Z) (b : board)
    : result (Z * board) :=
  let '(x, y) := coord in
  let x0 := x - 1 in
  let y0 := y - 1 in
  flips ← _discs_to_flip b colour x0 y0;
  let piece := if String.eqb colour "Black" then BLACK else WHITE in
  b1 ← set_cell b x0 y0 piece;
  b2 ← set_cells b1 flips piece;
  Ok (Py.len flips, b2).

(** The inner [for x] loop of [has_any_legal_moves]: [true] stands for the
    early [return True]. *)
Fixpoint scan_row (colour : string) (b : board) (y : Z) (xs : list Z)
    : result bool :=
  match xs with
  | [] => Ok false
  | x :: xs' =>
      legal_move colour (x, y) b ≫= λ r : bool,
      if r then Ok true else scan_row colour b y xs'
  end.

Fixpoint scan_rows (colour : string) (b : board) (size : Z) (ys : list Z)
    : result bool :=
  match ys with
  | [] => Ok false
  | y :: ys' =>
      scan_row colour b y (Py.range 1 (size + 1)) ≫= λ r : bool,
      if r then Ok true else scan_rows colour b size ys'
  end.

Definition has_any_legal_moves (colour : string) (b : board) : result bool :=
  let size := Py.len b in
  scan_rows colour b size (Py.range 1 (size + 1)).

(** The inner loop of [count_pieces] over the cells of one row. *)
Fixpoint count_row (row : list string) (black white : nat) : nat * nat :=
  match row with
  | [] => (black, white)
  | cell :: row' =>
      let v := Py.strip cell in
      if String.eqb v "Black" then count_row row' (black + 1)%nat white
      else if String.eqb v "White" then count_row row' black (white + 1)%nat
      else count_row row' black white
  end.

Fixpoint count_rows (b : board) (black white : nat) : nat * nat :=
  match b with
  | [] => (black, white)
  | row :: b' =>
      let '(black', white') := count_row row black white in
      count_rows b' black' white'
  end.

Definition count_pieces (b : board) : nat * nat := count_rows b 0%nat 0%nat.

End Components.

(** ** flask_engine.py

    The handler of [/move] is embedded without its texts: a response keeps
    its status, board, current player, notation and, when the game ended,
    the final score and the winner line of [finished_text].  A notation is
    kept as the code point of its column letter and its row number. *)

Module FlaskEngine.

Import Components.

Record game_state : Type := {
  gs_board : board;
  gs_current : string;
  gs_move_history : list (Z * Z);
  gs_game_finished : bool
}.

Record final_score : Type := {
  fs_black : nat;
  fs_white : nat;
  fs_winner : string
}.

Record response : Type := {
  r_status : string;
  r_board : board;
  r_current_player : string;
  r_notation : option (Z * Z);
  r_finished : option final_score
}.

(** The state after [new_game()]. *)
Definition new_game : result game_state :=
  b ← initialise_board BOARD_SIZE_DEFAULT;
  Ok {| gs_board := b; gs_current := "Black";
        gs_move_history := []; gs_game_finished := false |}.

Definition is_game_finished (b : board) : result bool :=
  has_any_legal_moves "Black" b ≫= λ black_can : bool,
  if negb black_can then
    has_any_legal_moves "White" b ≫= λ white_can : bool,
    if negb white_can then Ok true else Ok false
  else Ok false.

Definition other_colour (colour : string) : string :=
  if String.eqb colour "Black" then "White" else "Black".

(** [chr] raises outside the range of code points. *)
Definition coord_to_notation (x y : Z) : result (Z * Z) :=
  let code := Py.ord "A" + x - 1 in
  if (0 <=? code) && (code <? 1114112) then Ok (code, y)
  else Raise (ValueError "chr() arg not in range(0x110000)").

(** The pass handling of [move]: who plays after [current] has moved. *)
Definition next_player_after (current : string) (b : board) : result string :=
  let opponent := other_colour current in
  has_any_legal_moves opponent b ≫= λ opponent_can : bool,
  if opponent_can then Ok opponent
  else
    has_any_legal_moves current b ≫= λ current_can : bool,
    if current_can then Ok current
    else Ok opponent.

(** The final score of [move], computed when the game is finished. *)
Definition final_score_of (b : board) : final_score :=
  let '(black, white) := count_pieces b in
  let winner :=
    if (white <? black)%nat then "Black wins!"
    else if (black <? white)%nat then "White wins!"
    else "It's a draw!" in
  {| fs_black := black; fs_white := white; fs_winner := winner |}.

(** [move()] with the query parameters already read as integers.  [None]
    is the empty [game_state] dictionary. *)
Definition move (x y : Z) (state : option game_state)
    : result (response * game_state) :=
  gs ← match state with Some gs => Ok gs | None => new_game end;
  let b := gs_board gs in
  let current := gs_current gs in
  if gs_game_finished gs then
    Ok ({| r_status := "success"; r_board := b; r_current_player := current;
           r_notation := None; r_finished := None |}, gs)
  else
    legal_move current (x, y) b ≫= λ legal : bool,
    if negb legal then
      _ ← coord_to_notation x y;
      Ok ({| r_status := "fail"; r_board := b; r_current_player := current;
             r_notation := None; r_finished := None |}, gs)
    else
      apply_move current (x, y) b ≫= λ '(flips, b'),
      notation ← coord_to_notation x y;
      let history := gs_move_history gs ++ [notation] in
      next_player ← next_player_after current b';
      is_game_finished b' ≫= λ finished : bool,
      let finished_text :=
        if finished then Some (final_score_of b') else None in
      Ok ({| r_status := "success"; r_board := b';
             r_current_player := next_player;
             r_notation := Some notation; r_finished := finished_text |},
          {| gs_board := b'; gs_current := next_player;
             gs_move_history := history;
             gs_game_finished := finished |}).

End FlaskEngine.

(** ** game_engine.py *)

Module GameEngine.

(** [raw[0]] and [raw[1:]] of a string of length at least 2 are taken by
    pattern matching. *)
Definition parse_letter_number_input (raw : string) : result (Z * Z) :=
  let raw := Py.remove_char " " (Py.remove_char "," (Py.strip raw)) in
  let raw := Py.upper raw in
  if Z.of_nat (String.length raw) <? 2 then
    Raise (ValueError "Input must contain a letter and a number.")
  else
    match raw with
    | EmptyString =>
        Raise (ValueError "Input must contain a letter and a number.")
    | String letter rest =>
        if negb (Py.char_between "A" letter "H") then
          Raise (ValueError "Column must be a letter from A to H.")
        else
          let x := Py.ord letter - Py.ord "A" + 1 in
          match Py.int rest with
          | Raise (ValueError _) =>
              Raise (ValueError "Row must be a number between 1 and 8.")
          | Raise e => Raise e
          | OutOfFuel => OutOfFuel
          | Ok y =>
              if negb ((1 <=? y) && (y <=? 8)) then
                Raise (ValueError "Row must be between 1 and 8.")
              else Ok (x, y)
          end
    end.

Definition other_colour (colour : string) : string :=
  if String.eqb colour "Black" then "White" else "Black".

(** *** The interactive part

    [input()] reads from a list of lines that are still to come and raises
    [EOFError] when none is left; what the loops print is left out, and so
    are the calls of [print_board].  A loop ends with a value and the lines
    it has not read, or stops for good. *)

Import Components.

Inductive stop : Type :=
  | SystemExit
  | EOFError
  | Exception (e : exn)
  | Fuel.

Inductive outcome (A : Type) : Type :=
  | Done (a : A) (rest : list string)
  | Stop (why : stop).

Arguments Done {A} a rest.
Arguments Stop {A} why.

Fixpoint cli_coords_input (lines : list string) : outcome (Z * Z) :=
  match lines with
  | [] => Stop EOFError
  | line :: rest =>
      let raw := Py.strip line in
      if bool_decide (Py.lower raw ∈ ["q"; "quit"; "exit"]) then
        Stop SystemExit
      else
        match parse_letter_number_input raw with
        | Ok coord => Done coord rest
        | Raise (ValueError _) => cli_coords_input rest
        | Raise e => Stop (Exception e)
        | OutOfFuel => Stop Fuel
        end
  end.

(** The inner [while True] loop of [simple_game_loop]: it asks for a
    coordinate until [legal_move] accepts one, and applies it.  Every round
    reads at least one line, which bounds the rounds by the fuel. *)
Fixpoint enter_move (fuel : nat) (current : string) (b : board)
    (lines : list string) : outcome (Z * board) :=
  match fuel with
  | O => Stop Fuel
  | S fuel' =>
      match cli_coords_input lines with
      | Stop why => Stop why
      | Done coord rest =>
          match legal_move current coord b with
          | Ok false => enter_move fuel' current b rest
          | Ok true =>
              match apply_move current coord b with
              | Ok (flips, b') => Done (flips, b') rest
              | Raise e => Stop (Exception e)
              | OutOfFuel => Stop Fuel
              end
          | Raise e => Stop (Exception e)
          | OutOfFuel => Stop Fuel
          end
      end
  end.

(** The pass handling at the top of the outer loop: the colour that plays
    this turn, or [None] where neither colour can move and the loop
    breaks. *)
Definition player_to_move (current : string) (b : board)
    : result (option string) :=
  has_any_legal_moves current b ≫= λ can_move : bool,
  if negb can_move then
    let opponent := other_colour current in
    has_any_legal_moves opponent b ≫= λ opponent_can : bool,
    if negb opponent_can then Ok None else Ok (Some opponent)
  else Ok (Some current).

(** The outer [while moves_remaining > 0] loop. *)
Fixpoint game_loop (moves_remaining : nat) (b : board) (current : string)
    (lines : list string) : outcome board :=
  match moves_remaining with
  | O => Done b lines
  | S remaining =>
      match player_to_move current b with
      | Ok None => Done b lines
      | Ok (Some current) =>
          match enter_move (S (length lines)) current b lines with
          | Stop why => Stop why
          | Done (_, b') rest =>
              match remaining with
              | O => Done b' rest
              | S _ => game_loop remaining b' (other_colour current) rest
              end
          end
      | Raise e => Stop (Exception e)
      | OutOfFuel => Stop Fuel
      end
  end.

Record game_result : Type := {
  gr_board : board;
  gr_black : nat;
  gr_white : nat;
  gr_winner : string
}.

Definition simple_game_loop (lines : list string) : outcome game_result :=
  match initialise_board BOARD_SIZE_DEFAULT with
  | Ok b =>
      match game_loop 60 b "Black" lines with
      | Stop why => Stop why
      | Done b' rest =>
          let '(black, white) := count_pieces b' in
          let winner :=
            if (white <? black)%nat then "Black wins!"
            else if (black <? white)%nat then "White wins!"
            else "It's a draw!" in
          Done {| gr_board := b'; gr_black := black; gr_white := white;
                  gr_winner := winner |} rest
      end
  | Raise e => Stop (Exception e)
  | OutOfFuel => Stop Fuel
  end.

End GameEngine.


Import Components.

(** * Vocabulary of the properties *)

(** The row and column positions that [board[y][x]] denotes, if any. *)
Definition locate (b : board) (x y : Z) : option (nat * nat) :=
  j ← Py.index (length b) y;
  row ← b !! j;
  i ← Py.index (length row) x;
  Some (i, j).

(** The cell at a position. *)
Definition cell_at (b : board) (p : nat * nat) : option string :=
  row ← b !! p.2; row !! p.1.

(** The board with the cell at a position overwritten. *)
Definition put_at (b : board) (p : nat * nat) (v : string) : board :=
  match b !! p.2 with
  | Some row => <[p.2 := <[p.1 := v]> row]> b
  | None => b
  end.

(** Every row is as long as the board is high. *)
Definition square (b : board) : Prop :=
  Forall (λ row : list string, length row = length b) b.

(** The board [initialise_board(8)] returns. *)
Definition standard_board : board :=
  let e := EMPTY in
  [ [e; e; e; e; e; e; e; e];
    [e; e; e; e; e; e; e; e];
    [e; e; e; e; e; e; e; e];
    [e; e; e; WHITE; BLACK; e; e; e];
    [e; e; e; BLACK; WHITE; e; e; e];
    [e; e; e; e; e; e; e; e];
    [e; e; e; e; e; e; e; e];
    [e; e; e; e; e; e; e; e] ].

(** The colour [count_pieces] reads in a cell. *)
Definition colour_at (b : board) (p : Z * Z) : option string :=
  match get_cell b p.1 p.2 with
  | Ok c => Some (Py.strip c)
  | _ => None
  end.

(** The 0-based coordinates of all cells of a board, row by row. *)
Definition positions (b : board) : list (Z * Z) :=
  y ← Py.range 0 (Py.len b);
  x ← Py.range 0 (match Py.getitem b y with Ok row => Py.len row | _ => 0 end);
  [(x, y)].

(** The cells other than [target] whose colour differs between two boards. *)
Definition changed_cells (b b' : board) (target : Z * Z) : list (Z * Z) :=
  filter (λ p, p ≠ target ∧ colour_at b p ≠ colour_at b' p) (positions b).

(** The number of discs on a board. *)
Definition discs (b : board) : nat := (count_pieces b).1 + (count_pieces b).2.

(** The first [n] cells from [(cx, cy)] in the direction [(dx, dy)]. *)
Fixpoint ray (dx dy cx cy : Z) (n : nat) : list (Z * Z) :=
  match n with
  | O => []
  | S n' => (cx, cy) :: ray dx dy (cx + dx) (cy + dy) n'
  end.

(** The fuel lasts for a walk from [(cx, cy)] to the edge of the board. *)
Definition enough (fuel : nat) (size dx dy cx cy : Z) : Prop :=
  (0 < fuel)%nat ∧
  ((dx = 1 ∧ size - cx < Z.of_nat fuel) ∨ (dx = -1 ∧ cx + 1 < Z.of_nat fuel) ∨
   (dy = 1 ∧ size - cy < Z.of_nat fuel) ∨ (dy = -1 ∧ cy + 1 < Z.of_nat fuel)).

(** The colour the walks of [_discs_to_flip] take for the opponent's. *)
Definition other_of (me : string) : string :=
  if String.eqb me "Black" then "White" else "Black".

(** The disc [apply_move] writes. *)
Definition piece_of (colour : string) : string :=
  if String.eqb colour "Black" then BLACK else WHITE.

(** What a cell adds to the number of discs. *)
Definition disc (c : string) : nat :=
  if String.eqb (Py.strip c) "Black" then 1
  else if String.eqb (Py.strip c) "White" then 1 else 0.

(** A direction of the compass: one step along each axis at most, and not
    the null step. *)
Definition compass (d : Z * Z) : Prop :=
  -1 ≤ d.1 ≤ 1 ∧ -1 ≤ d.2 ≤ 1 ∧ d ≠ (0, 0).

(** [n] cells of the opponent's colour in a row from the target in the
    direction [d], closed by a cell of the mover's colour, all of them
    within the bounds. *)
Definition bracket (b : board) (me other : string) (x0 y0 : Z) (d : Z * Z)
    (n : Z) : Prop :=
  1 ≤ n ∧
  (∀ i, 1 ≤ i ≤ n →
     in_bounds (Py.len b) (x0 + i * d.1) (y0 + i * d.2) = true ∧
     colour_at b (x0 + i * d.1, y0 + i * d.2) = Some other) ∧
  in_bounds (Py.len b) (x0 + (n + 1) * d.1) (y0 + (n + 1) * d.2) = true ∧
  colour_at b (x0 + (n + 1) * d.1, y0 + (n + 1) * d.2) = Some me.

(** What a cell adds to the count of Black and to the count of White in
    [count_pieces]. *)
Definition black_disc (c : string) : nat :=
  if String.eqb (Py.strip c) "Black" then 1 else 0.

Definition white_disc (c : string) : nat :=
  if String.eqb (Py.strip c) "Black" then 0
  else if String.eqb (Py.strip c) "White" then 1 else 0.

(** The sum of a weight over the cells of a board. *)
Definition total (w : string → nat) (b : board) : nat :=
  sum_list ((λ row, sum_list (w <$> row)) <$> b).

(** The number of cells of a board. *)
Definition cells (b : board) : nat := sum_list (length <$> b).

(** A sequence of moves, each legal on the board the moves before it left,
    and the board after the last of them. *)
Inductive legal_play : board → list (string * (Z * Z)) → board → Prop :=
  | play_nil (b : board) : legal_play b [] b
  | play_cons (b : board) (colour : string) (coord : Z * Z) (n : Z)
      (b1 : board) (moves : list (string * (Z * Z))) (b' : board) :
      legal_move colour coord b = Ok true →
      apply_move colour coord b = Ok (n, b1) →
      legal_play b1 moves b' →
      legal_play b ((colour, coord) :: moves) b'.

(** The state [new_game()] stores. *)
Definition opening_state : FlaskEngine.game_state :=
  {| FlaskEngine.gs_board := standard_board;
     FlaskEngine.gs_current := "Black";
     FlaskEngine.gs_move_history := [];
     FlaskEngine.gs_game_finished := false |}.

(** The text of a notation, [f"{letter}{y}"], for a letter below 256. *)
Definition notation_text (nt : Z * Z) : string :=
  String (ascii_of_nat (Z.to_nat nt.1)) (pretty nt.2).

(** A line on which the prompt of the command line quits, and a line it
    passes over to ask again. *)
Definition quit_word (line : string) : Prop :=
  Py.lower (Py.strip line) ∈ ["q"; "quit"; "exit"].

Definition skipped_line (line : string) : Prop :=
  ¬ quit_word line ∧
  ∃ msg, GameEngine.parse_letter_number_input (Py.strip line)
           = Raise (ValueError msg).

(** * Properties *)

(** ** Sequencing and subscripts *)

Section Subscripts.

Context {A : Type}.
Implicit Types (l : list A) (i : Z) (k : nat).

Lemma bind_Ok_inv {B C : Type} (r : result B) (f : B → result C) (c : C) :
  r ≫= f = Ok c → ∃ a, r = Ok a ∧ f a = Ok c.
Proof. destruct r as [a| |]; simpl; [eauto | done | done]. Qed.

Lemma index_lt n i k : Py.index n i = Some k → (k < n)%nat.
Proof.
  unfold Py.index. intros H.
  destruct (0 <=? i) eqn:E1, (i <? Z.of_nat n) eqn:E2; simpl in H;
    try (injection H as <-; lia);
    destruct (- Z.of_nat n <=? i) eqn:E3, (i <? 0) eqn:E4; simpl in H;
    try discriminate; injection H as <-; lia.
Qed.

Lemma index_nonneg n i : 0 ≤ i < Z.of_nat n → Py.index n i = Some (Z.to_nat i).
Proof.
  intros [H1 H2]. unfold Py.index.
  apply Z.leb_le in H1. apply Z.ltb_lt in H2. by rewrite H1, H2.
Qed.

Lemma index_Some_range n i k : Py.index n i = Some k → - Z.of_nat n ≤ i < Z.of_nat n.
Proof.
  unfold Py.index. intros H.
  destruct (0 <=? i) eqn:E1, (i <? Z.of_nat n) eqn:E2; simpl in H;
    try lia;
    destruct (- Z.of_nat n <=? i) eqn:E3, (i <? 0) eqn:E4; simpl in H;
    try discriminate; lia.
Qed.

Lemma index_None_range n i : Py.index n i = None → ¬ (- Z.of_nat n ≤ i < Z.of_nat n).
Proof.
  unfold Py.index. intros H.
  destruct (0 <=? i) eqn:E1, (i <? Z.of_nat n) eqn:E2; simpl in H;
    try discriminate;
    destruct (- Z.of_nat n <=? i) eqn:E3, (i <? 0) eqn:E4; simpl in H;
    try discriminate; lia.
Qed.

Lemma getitem_Ok l i a :
  Py.getitem l i = Ok a ↔ ∃ k, Py.index (length l) i = Some k ∧ l !! k = Some a.
Proof.
  unfold Py.getitem. split.
  - destruct (Py.index (length l) i) as [k|]; [|done].
    destruct (l !! k) eqn:E; [|done]. intros [= ->]. eauto.
  - intros (k & -> & ->). done.
Qed.

Lemma getitem_total l i k :
  Py.index (length l) i = Some k → ∃ a, Py.getitem l i = Ok a ∧ l !! k = Some a.
Proof.
  intros H. destruct (lookup_lt_is_Some_2 l k (index_lt _ _ _ H)) as [a Ha].
  exists a. split; [|done]. apply getitem_Ok. eauto.
Qed.

Lemma getitem_Raise l i :
  Py.index (length l) i = None → Py.getitem l i = Raise IndexError.
Proof. unfold Py.getitem. by intros ->. Qed.

Lemma setitem_Ok l i v l' :
  Py.setitem l i v = Ok l' ↔ ∃ k, Py.index (length l) i = Some k ∧ l' = <[k := v]> l.
Proof.
  unfold Py.setitem. split.
  - destruct (Py.index (length l) i) as [k|]; [|done]. intros [= <-]. eauto.
  - intros (k & -> & ->). done.
Qed.

End Subscripts.

(** ** Cells of a board *)

Lemma locate_in_range b x y i j :
  locate b x y = Some (i, j) →
  ∃ row, b !! j = Some row ∧ (i < length row)%nat ∧ (j < length b)%nat.
Proof.
  unfold locate. intros H.
  destruct (Py.index (length b) y) as [j'|] eqn:Ej; [|done]. simpl in H.
  destruct (b !! j') as [row|] eqn:Er; [|done]. simpl in H.
  destruct (Py.index (length row) x) as [i'|] eqn:Ei; [|done]. simpl in H.
  injection H as -> ->. exists row. eauto using index_lt.
Qed.

Lemma locate_nonneg b x y row :
  0 ≤ y < Py.len b → b !! Z.to_nat y = Some row → 0 ≤ x < Py.len row →
  locate b x y = Some (Z.to_nat x, Z.to_nat y).
Proof.
  unfold locate, Py.len. intros Hy Hr Hx.
  rewrite (index_nonneg _ _ Hy). simpl. rewrite Hr. simpl.
  by rewrite (index_nonneg _ _ Hx).
Qed.

Lemma get_cell_Ok b x y c :
  get_cell b x y = Ok c ↔ ∃ p, locate b x y = Some p ∧ cell_at b p = Some c.
Proof.
  unfold get_cell, locate, cell_at. split.
  - intros H. apply bind_Ok_inv in H as (row & Hr & Hc).
    apply getitem_Ok in Hr as (j & Hj & Hr). apply getitem_Ok in Hc as (i & Hi & Hc).
    exists (i, j). rewrite Hj. simpl. rewrite Hr. simpl. by rewrite Hi.
  - intros ([i j] & H & Hc). simpl in Hc.
    destruct (Py.index (length b) y) as [j'|] eqn:Ej; [|done]. simpl in H.
    destruct (b !! j') as [row|] eqn:Er; [|done]. simpl in H.
    destruct (Py.index (length row) x) as [i'|] eqn:Ei; [|done]. simpl in H.
    injection H as -> ->. rewrite Er in Hc. simpl in Hc.
    assert (Py.getitem b y = Ok row) as -> by (apply getitem_Ok; eauto).
    simpl. apply getitem_Ok; eauto.
Qed.

Lemma get_cell_located b x y p :
  locate b x y = Some p → ∃ c, get_cell b x y = Ok c ∧ cell_at b p = Some c.
Proof.
  destruct p as [i j]. intros H.
  destruct (locate_in_range _ _ _ _ _ H) as (row & Hr & Hi & _).
  destruct (lookup_lt_is_Some_2 row i Hi) as [c Hc].
  exists c. assert (cell_at b (i, j) = Some c) as Hat.
  { unfold cell_at. simpl. rewrite Hr. done. }
  split; [|done]. apply get_cell_Ok. eauto.
Qed.

Lemma get_cell_unlocated b x y :
  locate b x y = None → get_cell b x y = Raise IndexError.
Proof.
  unfold locate, get_cell. intros H.
  destruct (Py.index (length b) y) as [j|] eqn:Ej.
  - destruct (getitem_total _ _ _ Ej) as (row & -> & Hr). simpl in *.
    rewrite Hr in H. simpl in H.
    destruct (Py.index (length row) x) eqn:Ei; [done|].
    by apply getitem_Raise.
  - by rewrite (getitem_Raise _ _ Ej).
Qed.

Lemma get_cell_fuel b x y : get_cell b x y ≠ OutOfFuel.
Proof.
  destruct (locate b x y) as [p|] eqn:E.
  - by destruct (get_cell_located _ _ _ _ E) as (c & -> & _).
  - by rewrite get_cell_unlocated.
Qed.

Lemma set_cell_located b x y v p :
  locate b x y = Some p → set_cell b x y v = Ok (put_at b p v).
Proof.
  destruct p as [i j]. unfold locate, set_cell, put_at. intros H.
  destruct (Py.index (length b) y) as [j'|] eqn:Ej; [|done]. simpl in H.
  destruct (getitem_total _ _ _ Ej) as (row & -> & Hr). rewrite Hr in H.
  simpl in *.
  destruct (Py.index (length row) x) as [i'|] eqn:Ei; [|done].
  injection H as -> ->. rewrite Hr.
  assert (Py.setitem row x v = Ok (<[i := v]> row)) as ->
    by (apply setitem_Ok; eauto).
  simpl. apply setitem_Ok; eauto.
Qed.

Lemma set_cell_unlocated b x y v :
  locate b x y = None → set_cell b x y v = Raise IndexError.
Proof.
  unfold locate, set_cell. intros H.
  destruct (Py.index (length b) y) as [j|] eqn:Ej.
  - destruct (getitem_total _ _ _ Ej) as (row & -> & Hr). simpl in *.
    rewrite Hr in H. simpl in H.
    destruct (Py.index (length row) x) eqn:Ei; [done|].
    assert (Py.setitem row x v = Raise IndexError) as ->; [|done].
    unfold Py.setitem. by rewrite Ei.
  - by rewrite (getitem_Raise _ _ Ej).
Qed.

Lemma set_cell_Ok b x y v b' :
  set_cell b x y v = Ok b' ↔ ∃ p, locate b x y = Some p ∧ b' = put_at b p v.
Proof.
  split.
  - intros H. destruct (locate b x y) as [p|] eqn:E.
    + rewrite (set_cell_located _ _ _ _ _ E) in H. injection H as <-. eauto.
    + by rewrite (set_cell_unlocated _ _ _ _ E) in H.
  - intros (p & H & ->). by apply set_cell_located.
Qed.

Lemma put_at_length b p v : length (put_at b p v) = length b.
Proof. unfold put_at. destruct (b !! p.2); [apply length_insert | done]. Qed.

Lemma put_at_row b p v j :
  put_at b p v !! j =
    (λ row, if decide (j = p.2) then <[p.1 := v]> row else row) <$> b !! j.
Proof.
  unfold put_at. destruct (b !! p.2) as [row|] eqn:Er.
  - destruct (decide (j = p.2)) as [->|Hne].
    + rewrite list_lookup_insert_eq by (by eapply lookup_lt_Some).
      by rewrite Er.
    + rewrite list_lookup_insert_ne by done. by destruct (b !! j).
  - destruct (decide (j = p.2)) as [->|Hne]; [by rewrite Er|].
    by destruct (b !! j).
Qed.

Lemma put_at_locate b p v x y : locate (put_at b p v) x y = locate b x y.
Proof.
  unfold locate. rewrite put_at_length.
  destruct (Py.index (length b) y) as [j|]; [|done]. simpl.
  rewrite put_at_row. destruct (b !! j) as [row|]; [|done]. simpl.
  destruct (decide (j = p.2)); [by rewrite length_insert | done].
Qed.

Lemma put_at_cell b p v q :
  is_Some (cell_at b p) →
  cell_at (put_at b p v) q = if decide (q = p) then Some v else cell_at b q.
Proof.
  destruct p as [i j], q as [i' j']. unfold cell_at. simpl. intros [c Hc].
  rewrite put_at_row. simpl.
  destruct (b !! j) as [row|] eqn:Er; [|done]. simpl in Hc.
  destruct (decide (j' = j)) as [->|Hj].
  - rewrite Er. simpl. destruct (decide (i' = i)) as [->|Hi].
    + rewrite decide_True by done.
      apply list_lookup_insert_eq. by eapply lookup_lt_Some.
    + rewrite decide_False by congruence. by apply list_lookup_insert_ne.
  - rewrite decide_False by congruence. by destruct (b !! j').
Qed.

Lemma put_at_square b p v : square b → square (put_at b p v).
Proof.
  unfold square. intros H. apply Forall_lookup. intros j row Hrow.
  rewrite put_at_row in Hrow. rewrite put_at_length.
  destruct (b !! j) as [row0|] eqn:Er; [|done]. simpl in Hrow.
  injection Hrow as <-. pose proof (Forall_lookup_1 _ _ _ _ H Er) as Hl.
  simpl in Hl. destruct (decide (j = p.2)); [by rewrite length_insert | done].
Qed.

(** ** The walk in one direction *)

Lemma in_bounds_spec size x y :
  in_bounds size x y = true ↔ (0 ≤ x < size ∧ 0 ≤ y < size).
Proof. unfold in_bounds. rewrite !andb_true_iff, !Z.leb_le, !Z.ltb_lt. lia. Qed.

Lemma in_bounds_false size x y :
  in_bounds size x y = false ↔ ¬ (0 ≤ x < size ∧ 0 ≤ y < size).
Proof. rewrite <- in_bounds_spec. by destruct (in_bounds size x y). Qed.

Lemma compass_DIRECTIONS : Forall compass DIRECTIONS.
Proof. unfold DIRECTIONS, compass. repeat constructor; simpl; (lia || done). Qed.

Lemma NoDup_DIRECTIONS : NoDup DIRECTIONS.
Proof.
  unfold DIRECTIONS.
  repeat (constructor; [rewrite ?elem_of_cons, elem_of_nil; intuition congruence|]).
  constructor.
Qed.

Lemma enough_start size d x0 y0 :
  compass d → 0 ≤ x0 < size → 0 ≤ y0 < size →
  enough (Z.to_nat size) size d.1 d.2 (x0 + d.1) (y0 + d.2).
Proof.
  destruct d as [dx dy]. unfold compass, enough. simpl. intros (Hx & Hy & Hd) ? ?.
  split; [lia|]. rewrite Z2Nat.id by lia.
  destruct (decide (dx = 1)); [lia|]. destruct (decide (dx = -1)); [lia|].
  destruct (decide (dy = 1)); [lia|]. destruct (decide (dy = -1)); [lia|].
  exfalso. apply Hd. f_equal; lia.
Qed.

Lemma enough_step fuel size dx dy cx cy :
  enough (S fuel) size dx dy cx cy → in_bounds size cx cy = true →
  enough fuel size dx dy (cx + dx) (cy + dy).
Proof. unfold enough. rewrite in_bounds_spec. lia. Qed.

(** The fuel [_discs_to_flip] gives a walk is never used up. *)
Lemma walk_fuel_enough fuel b size me other dx dy cx cy line :
  enough fuel size dx dy cx cy →
  walk fuel b size me other dx dy cx cy line ≠ OutOfFuel.
Proof.
  revert cx cy line. induction fuel as [|fuel IH]; intros cx cy line Hf.
  - destruct Hf as [? _]. lia.
  - simpl. destruct (in_bounds size cx cy) eqn:Hin; [|done].
    destruct (get_cell b cx cy) as [c| |] eqn:Hc; simpl; [|done|].
    + destruct (String.eqb (Py.strip c) other).
      * apply IH. by apply enough_step.
      * by destruct (String.eqb (Py.strip c) me).
    + by apply get_cell_fuel in Hc.
Qed.

(** Where every cell within the bounds can be read, a walk returns. *)
Lemma walk_returns fuel b size me other dx dy cx cy line :
  (∀ x y, in_bounds size x y = true → ∃ c, get_cell b x y = Ok c) →
  enough fuel size dx dy cx cy →
  ∃ l, walk fuel b size me other dx dy cx cy line = Ok l.
Proof.
  intros Hget. revert cx cy line.
  induction fuel as [|fuel IH]; intros cx cy line Hf.
  - destruct Hf as [? _]. lia.
  - simpl. destruct (in_bounds size cx cy) eqn:Hin; [|eauto].
    destruct (Hget _ _ Hin) as [c ->]. simpl.
    destruct (String.eqb (Py.strip c) other).
    + apply IH. by apply enough_step.
    + destruct (String.eqb (Py.strip c) me); eauto.
Qed.

Lemma ray_elem dx dy cx cy n p :
  p ∈ ray dx dy cx cy n ↔
  ∃ k : nat, (k < n)%nat ∧ p = (cx + Z.of_nat k * dx, cy + Z.of_nat k * dy).
Proof.
  revert cx cy. induction n as [|n IH]; intros cx cy; simpl.
  - rewrite elem_of_nil. split; [done|]. intros (k & ? & _). lia.
  - rewrite elem_of_cons, IH. split.
    + intros [->|(k & Hk & ->)].
      * exists 0%nat. split; [lia|]. f_equal; lia.
      * exists (S k). split; [lia|]. f_equal; lia.
    + intros (k & Hk & ->). destruct k as [|k].
      * left. f_equal; lia.
      * right. exists k. split; [lia|]. f_equal; lia.
Qed.

Lemma ray_NoDup dx dy cx cy n : (dx, dy) ≠ (0, 0) → NoDup (ray dx dy cx cy n).
Proof.
  intros Hd. revert cx cy. induction n as [|n IH]; intros cx cy; simpl.
  - constructor.
  - constructor; [|apply IH]. rewrite ray_elem. intros (k & _ & [= Hx Hy]).
    apply Hd. f_equal; nia.
Qed.

(** What a walk adds to the flips: nothing, or the cells collected before
    it together with a run of opponent cells within the bounds. *)
Lemma walk_Ok fuel b size me other dx dy cx cy line l :
  walk fuel b size me other dx dy cx cy line = Ok l →
  l = [] ∨
  ∃ n, l = line ++ ray dx dy cx cy n ∧
       ∀ p, p ∈ ray dx dy cx cy n →
            in_bounds size p.1 p.2 = true ∧
            ∃ c, get_cell b p.1 p.2 = Ok c ∧ Py.strip c = other.
Proof.
  revert cx cy line. induction fuel as [|fuel IH]; intros cx cy line; [done|].
  simpl. destruct (in_bounds size cx cy) eqn:Hin; [|intros [= <-]; by left].
  destruct (get_cell b cx cy) as [c| |] eqn:Hc; simpl; [|done..].
  destruct (String.eqb (Py.strip c) other) eqn:Ho.
  - intros H. apply IH in H as [->|(n & -> & Hn)]; [by left|]. right.
    exists (S n). simpl. rewrite <- app_assoc. split; [done|].
    intros q [->|Hq]%elem_of_cons; [|by apply Hn]. simpl.
    apply String.eqb_eq in Ho. eauto.
  - destruct (String.eqb (Py.strip c) me); [|intros [= <-]; by left].
    intros [= <-]. destruct line; [by left|]. right. exists 0%nat.
    simpl. rewrite app_nil_r. split; [done|]. intros q Hq. by apply elem_of_nil in Hq.
Qed.

(** ** The flips of a move *)

Lemma compass_distinct d d' k k' :
  compass d → compass d' → 1 ≤ k → 1 ≤ k' →
  k * d.1 = k' * d'.1 → k * d.2 = k' * d'.2 → d = d'.
Proof.
  destruct d as [dx dy], d' as [dx' dy']. unfold compass. simpl.
  intros (Hx & Hy & _) (Hx' & Hy' & _) Hk Hk' H1 H2.
  assert (dx = -1 ∨ dx = 0 ∨ dx = 1) as Cx by lia.
  assert (dy = -1 ∨ dy = 0 ∨ dy = 1) as Cy by lia.
  assert (dx' = -1 ∨ dx' = 0 ∨ dx' = 1) as Cx' by lia.
  assert (dy' = -1 ∨ dy' = 0 ∨ dy' = 1) as Cy' by lia.
  f_equal.
  - destruct Cx as [-> | [-> | ->]], Cx' as [-> | [-> | ->]]; lia.
  - destruct Cy as [-> | [-> | ->]], Cy' as [-> | [-> | ->]]; lia.
Qed.

Lemma square_get_cell b x y :
  square b → in_bounds (Py.len b) x y = true → ∃ c, get_cell b x y = Ok c.
Proof.
  intros Hsq [Hx Hy]%in_bounds_spec. unfold Py.len in *.
  destruct (lookup_lt_is_Some_2 b (Z.to_nat y)) as [row Hr]; [lia|].
  pose proof (Forall_lookup_1 _ _ _ _ Hsq Hr) as Hl. simpl in Hl.
  destruct (get_cell_located b x y (Z.to_nat x, Z.to_nat y)) as (c & Hc & _).
  - eapply locate_nonneg; eauto. unfold Py.len. lia.
  - eauto.
Qed.

Lemma walk_all_fuel_enough b size me other x0 y0 dirs acc :
  Forall compass dirs → 0 ≤ x0 < size → 0 ≤ y0 < size →
  walk_all b size me other x0 y0 dirs acc ≠ OutOfFuel.
Proof.
  intros Hd Hx Hy. revert acc.
  induction Hd as [|[dx dy] dirs Hc _ IH]; intros acc; simpl; [done|].
  pose proof (walk_fuel_enough (Z.to_nat size) b size me other dx dy
    (x0 + dx) (y0 + dy) [] (enough_start size (dx, dy) x0 y0 Hc Hx Hy)) as Hw.
  destruct (walk _ _ _ _ _ _ _ _ _ _); simpl; [apply IH|done..].
Qed.

Lemma walk_all_returns b size me other x0 y0 dirs acc :
  (∀ x y, in_bounds size x y = true → ∃ c, get_cell b x y = Ok c) →
  Forall compass dirs → 0 ≤ x0 < size → 0 ≤ y0 < size →
  ∃ fl, walk_all b size me other x0 y0 dirs acc = Ok fl.
Proof.
  intros Hget Hd Hx Hy. revert acc.
  induction Hd as [|[dx dy] dirs Hc _ IH]; intros acc; simpl; [eauto|].
  destruct (walk_returns (Z.to_nat size) b size me other dx dy
    (x0 + dx) (y0 + dy) [] Hget (enough_start size (dx, dy) x0 y0 Hc Hx Hy))
    as [line ->].
  simpl. apply IH.
Qed.

(** The flips the directions add: distinct cells within the bounds, each
    some steps away from the target along a direction, each of the
    opponent's colour. *)
Lemma walk_all_Ok b size me other x0 y0 dirs acc fl :
  NoDup dirs → Forall compass dirs →
  walk_all b size me other x0 y0 dirs acc = Ok fl →
  ∃ rest, fl = acc ++ rest ∧ NoDup rest ∧
    ∀ q, q ∈ rest →
      (∃ d k, d ∈ dirs ∧ 1 ≤ k ∧ q = (x0 + k * d.1, y0 + k * d.2)) ∧
      in_bounds size q.1 q.2 = true ∧
      ∃ c, get_cell b q.1 q.2 = Ok c ∧ Py.strip c = other.
Proof.
  intros Hnd Hd. revert acc.
  induction Hd as [|[dx dy] dirs Hc Hd IH]; intros acc; simpl.
  - intros [= <-]. exists []. rewrite app_nil_r. split; [done|].
    split; [constructor|]. intros q Hq. by apply elem_of_nil in Hq.
  - intros H. apply bind_Ok_inv in H as (line & Hw & H).
    apply NoDup_cons in Hnd as [Hfresh Hnd].
    destruct (IH Hnd _ H) as (rest & -> & Hrest & Hq).
    assert (∃ n, line = ray dx dy (x0 + dx) (y0 + dy) n ∧
      ∀ q, q ∈ line → in_bounds size q.1 q.2 = true ∧
        ∃ c, get_cell b q.1 q.2 = Ok c ∧ Py.strip c = other)
      as (n & Hline & Hgood).
    { apply walk_Ok in Hw as [->|(n & -> & Hn)].
      - exists 0%nat. split; [done|]. intros q Hq'. by apply elem_of_nil in Hq'.
      - exists n. split; [done|]. done. }
    assert (∀ q, q ∈ line →
      ∃ k, 1 ≤ k ∧ q = (x0 + k * dx, y0 + k * dy)) as Hsteps.
    { intros q Hq'. rewrite Hline in Hq'. apply ray_elem in Hq' as (k & _ & ->).
      exists (Z.of_nat k + 1). split; [lia|]. f_equal; lia. }
    exists (line ++ rest). rewrite <- app_assoc. split; [done|]. split.
    + apply NoDup_app. split; [|split; [|done]].
      * rewrite Hline. apply ray_NoDup. destruct Hc as (_ & _ & Hc). done.
      * intros q Hq1 Hq2. destruct (Hsteps _ Hq1) as (k & Hk & ->).
        destruct (Hq _ Hq2) as ((d' & k' & Hd' & Hk' & Heq) & _).
        injection Heq as Hx Hy. apply Hfresh.
        rewrite (compass_distinct (dx, dy) d' k k'); simpl; try done; try lia.
        by eapply Forall_forall in Hd.
    + intros q [Hq'|Hq']%elem_of_app.
      * split; [|by apply Hgood]. destruct (Hsteps _ Hq') as (k & Hk & ->).
        exists (dx, dy), k. split; [left|done].
      * destruct (Hq _ Hq') as ((d' & k' & Hd' & Hk' & Heq) & Hrest').
        split; [|done]. exists d', k'. split; [by right|done].
Qed.

#[local] Arguments walk_all : simpl never.
#[local] Arguments _discs_to_flip : simpl never.
#[local] Arguments legal_move : simpl never.
#[local] Arguments apply_move : simpl never.

Lemma discs_to_flip_fuel_enough b colour x0 y0 :
  _discs_to_flip b colour x0 y0 ≠ OutOfFuel.
Proof.
  unfold _discs_to_flip.
  destruct (in_bounds (Py.len b) x0 y0) eqn:Hin; simpl; [|done].
  apply in_bounds_spec in Hin as [Hx Hy].
  destruct (get_cell b x0 y0) as [c| |] eqn:Hc; simpl.
  - destruct (String.eqb (Py.strip c) "None"); simpl; [|done].
    destruct (String.eqb (Py.strip colour) "Black" ||
              String.eqb (Py.strip colour) "White"); simpl; [|done].
    apply walk_all_fuel_enough; auto using compass_DIRECTIONS.
  - done.
  - by apply get_cell_fuel in Hc.
Qed.

Lemma discs_to_flip_returns b colour x0 y0 :
  square b → ∃ fl, _discs_to_flip b colour x0 y0 = Ok fl.
Proof.
  intros Hsq. unfold _discs_to_flip.
  destruct (in_bounds (Py.len b) x0 y0) eqn:Hin; simpl; [|eauto].
  destruct (square_get_cell _ _ _ Hsq Hin) as [c ->]. simpl.
  destruct (String.eqb (Py.strip c) "None"); simpl; [|eauto].
  destruct (String.eqb (Py.strip colour) "Black" ||
            String.eqb (Py.strip colour) "White"); simpl; [|eauto].
  apply in_bounds_spec in Hin as [Hx Hy].
  apply walk_all_returns; auto using compass_DIRECTIONS, square_get_cell.
Qed.

(** What [_discs_to_flip] returns: no cell, or distinct cells of the
    opponent's colour around an empty target within the bounds. *)
Lemma discs_to_flip_Ok b colour x0 y0 fl :
  _discs_to_flip b colour x0 y0 = Ok fl →
  fl = [] ∨
  (in_bounds (Py.len b) x0 y0 = true ∧
   (∃ c, get_cell b x0 y0 = Ok c ∧ Py.strip c = "None") ∧
   (Py.strip colour = "Black" ∨ Py.strip colour = "White") ∧
   NoDup fl ∧
   ∀ q, q ∈ fl →
     in_bounds (Py.len b) q.1 q.2 = true ∧
     ∃ c, get_cell b q.1 q.2 = Ok c ∧
          Py.strip c = other_of (Py.strip colour)).
Proof.
  unfold _discs_to_flip.
  destruct (in_bounds (Py.len b) x0 y0) eqn:Hin; simpl; [|intros [= <-]; by left].
  destruct (get_cell b x0 y0) as [c| |] eqn:Hc; simpl; [|done..].
  destruct (String.eqb (Py.strip c) "None") eqn:Hn; simpl;
    [|intros [= <-]; by left].
  destruct (String.eqb (Py.strip colour) "Black" ||
            String.eqb (Py.strip colour) "White") eqn:Hme; simpl;
    [|intros [= <-]; by left].
  intros H. right.
  apply walk_all_Ok in H as (rest & -> & Hnd & Hq);
    auto using compass_DIRECTIONS, NoDup_DIRECTIONS.
  simpl. apply String.eqb_eq in Hn.
  apply orb_true_iff in Hme. rewrite !String.eqb_eq in Hme.
  repeat split; eauto; by apply Hq.
Qed.

(** ** Writing cells *)

Lemma set_cells_Ok b cells v b' :
  set_cells b cells v = Ok b' →
  (∀ x y, locate b' x y = locate b x y) ∧
  (square b → square b') ∧
  (∀ p, cell_at b p = Some v → cell_at b' p = Some v) ∧
  (∀ q, q ∈ cells → get_cell b' q.1 q.2 = Ok v) ∧
  (∀ p, (∀ q, q ∈ cells → locate b q.1 q.2 ≠ Some p) →
        cell_at b' p = cell_at b p).
Proof.
  revert b. induction cells as [|[fx fy] cells IH]; intros b; simpl.
  - intros [= <-]. repeat split; try done.
    intros q Hq. by apply elem_of_nil in Hq.
  - intros H. apply bind_Ok_inv in H as (b1 & H1 & H).
    apply set_cell_Ok in H1 as (p0 & Hp0 & ->).
    destruct (get_cell_located _ _ _ _ Hp0) as (c0 & _ & Hc0).
    assert (∀ p, cell_at (put_at b p0 v) p =
                 if decide (p = p0) then Some v else cell_at b p) as Hput.
    { intros p. apply put_at_cell. eauto. }
    destruct (IH _ H) as (Hloc & Hsq & Hkeep & Hset & Hrest).
    split; [|split; [|split; [|split]]].
    + intros x y. by rewrite Hloc, put_at_locate.
    + intros Hb. by apply Hsq, put_at_square.
    + intros p Hp. apply Hkeep. rewrite Hput. by case_decide.
    + intros q [->|Hq]%elem_of_cons; [|by apply Hset]. simpl.
      apply get_cell_Ok. exists p0. split.
      * by rewrite Hloc, put_at_locate.
      * apply Hkeep. rewrite Hput. by rewrite decide_True.
    + intros p Hp. rewrite Hrest.
      * rewrite Hput. rewrite decide_False; [done|].
        intros ->. eapply (Hp (fx, fy)); [left|done].
      * intros q Hq. rewrite put_at_locate. apply Hp. by right.
Qed.

Lemma set_cells_returns b cells v :
  (∀ q, q ∈ cells → is_Some (locate b q.1 q.2)) →
  ∃ b', set_cells b cells v = Ok b'.
Proof.
  revert b. induction cells as [|[fx fy] cells IH]; intros b Hc; simpl; [eauto|].
  destruct (Hc (fx, fy)) as [p0 Hp0]; [left|]. simpl in Hp0.
  rewrite (set_cell_located _ _ _ _ _ Hp0). simpl. apply IH.
  intros q Hq. rewrite put_at_locate. apply Hc. by right.
Qed.

Lemma set_cells_raises b cells v x y :
  locate b x y = None → set_cells b ((x, y) :: cells) v = Raise IndexError.
Proof. intros H. simpl. by rewrite set_cell_unlocated. Qed.

(** [apply_move] writes the disc to the target and then to the flips. *)
Lemma apply_move_unfold colour x y b :
  apply_move colour (x, y) b =
    flips ← _discs_to_flip b colour (x - 1) (y - 1);
    b' ← set_cells b ((x - 1, y - 1) :: flips) (piece_of colour);
    Ok (Py.len flips, b').
Proof.
  unfold apply_move, piece_of.
  destruct (_discs_to_flip b colour (x - 1) (y - 1)); simpl; [|done..].
  by destruct (set_cell b (x - 1) (y - 1) _).
Qed.

Lemma apply_move_Ok colour x y b n b' :
  apply_move colour (x, y) b = Ok (n, b') ↔
  ∃ flips, _discs_to_flip b colour (x - 1) (y - 1) = Ok flips ∧
           n = Py.len flips ∧
           set_cells b ((x - 1, y - 1) :: flips) (piece_of colour) = Ok b'.
Proof.
  rewrite apply_move_unfold. split.
  - intros H. apply bind_Ok_inv in H as (flips & Hf & H).
    apply bind_Ok_inv in H as (b1 & Hs & [= <- <-]). eauto.
  - intros (flips & -> & -> & Hs). simpl. simpl in Hs. by rewrite Hs.
Qed.

(** The cells [_discs_to_flip] returns can all be written. *)
Lemma flips_located b colour x0 y0 flips :
  _discs_to_flip b colour x0 y0 = Ok flips →
  ∀ q, q ∈ flips → is_Some (locate b q.1 q.2).
Proof.
  intros H q Hq. apply discs_to_flip_Ok in H as [->|(_ & _ & _ & _ & H)].
  - by apply elem_of_nil in Hq.
  - destruct (H _ Hq) as (_ & c & Hc & _).
    apply get_cell_Ok in Hc as (p & -> & _). eauto.
Qed.

(** A flip set that is not empty has its target on the board. *)
Lemma flips_target_located b colour x0 y0 flips :
  _discs_to_flip b colour x0 y0 = Ok flips → flips ≠ [] →
  in_bounds (Py.len b) x0 y0 = true ∧ is_Some (locate b x0 y0).
Proof.
  intros H Hne. apply discs_to_flip_Ok in H as [->|(Hin & (c & Hc & _) & _)].
  - done.
  - split; [done|]. apply get_cell_Ok in Hc as (p & -> & _). eauto.
Qed.

Lemma legal_move_unfold colour x y b :
  legal_move colour (x, y) b =
    if in_bounds (Py.len b) (x - 1) (y - 1) then
      flips ← _discs_to_flip b colour (x - 1) (y - 1);
      Ok (0 <? Py.len flips)
    else Ok false.
Proof. unfold legal_move. by destruct (in_bounds _ _ _). Qed.

Lemma len_pos {A} (l : list A) : (0 <? Py.len l) = true ↔ l ≠ [].
Proof.
  unfold Py.len. rewrite Z.ltb_lt. destruct l; simpl; [|split; [done|lia]].
  split; [lia|done].
Qed.

Lemma legal_move_true colour x y b :
  legal_move colour (x, y) b = Ok true ↔
  ∃ flips, _discs_to_flip b colour (x - 1) (y - 1) = Ok flips ∧ flips ≠ [].
Proof.
  rewrite legal_move_unfold. split.
  - destruct (in_bounds _ _ _); [|done].
    intros H. apply bind_Ok_inv in H as (flips & Hf & [= H]).
    exists flips. split; [done|]. by apply len_pos.
  - intros (flips & Hf & Hne).
    destruct (flips_target_located _ _ _ _ _ Hf Hne) as [-> _].
    rewrite Hf. simpl. f_equal. by apply len_pos.
Qed.

Lemma legal_move_false colour x y b :
  legal_move colour (x, y) b = Ok false ↔
  (in_bounds (Py.len b) (x - 1) (y - 1) = false ∨
   _discs_to_flip b colour (x - 1) (y - 1) = Ok []).
Proof.
  rewrite legal_move_unfold. split.
  - destruct (in_bounds _ _ _); [|by left].
    intros H. apply bind_Ok_inv in H as (flips & Hf & [= H]).
    right. destruct flips as [|q flips]; [done|].
    by rewrite (proj2 (len_pos (q :: flips))) in H.
  - intros [->|Hf]; [done|]. rewrite Hf. simpl. by destruct (in_bounds _ _ _).
Qed.

Lemma legal_move_returns colour coord b :
  square b → ∃ r, legal_move colour coord b = Ok r.
Proof.
  intros Hsq. destruct coord as [x y]. rewrite legal_move_unfold.
  destruct (in_bounds _ _ _); [|eauto].
  destruct (discs_to_flip_returns b colour (x - 1) (y - 1) Hsq) as [fl ->].
  simpl. eauto.
Qed.

Lemma apply_move_legal colour x y b :
  legal_move colour (x, y) b = Ok true →
  ∃ flips b',
    _discs_to_flip b colour (x - 1) (y - 1) = Ok flips ∧ flips ≠ [] ∧
    set_cells b ((x - 1, y - 1) :: flips) (piece_of colour) = Ok b' ∧
    apply_move colour (x, y) b = Ok (Py.len flips, b').
Proof.
  intros (flips & Hf & Hne)%legal_move_true.
  destruct (flips_target_located _ _ _ _ _ Hf Hne) as [_ Ht].
  destruct (set_cells_returns b ((x - 1, y - 1) :: flips) (piece_of colour))
    as [b' Hb'].
  { intros q [->|Hq]%elem_of_cons; [done|]. by eapply flips_located. }
  exists flips, b'. repeat split; try done. apply apply_move_Ok. eauto.
Qed.

(** ** Legality *)

(** C2.  [legal_move] returns true exactly when [_discs_to_flip] returns a
    flip set that is not empty for the 0-based cell, which is exactly when
    [apply_move] would flip at least one cell; a move with no flip is
    illegal, and so is every coordinate outside the board.  On a square
    board [legal_move] always returns. *)
Theorem legal_move_iff_flips (b : board) (colour : string) (x y : Z) :
  (legal_move colour (x, y) b = Ok true ↔
     ∃ flips, _discs_to_flip b colour (x - 1) (y - 1) = Ok flips ∧ flips ≠ []) ∧
  (legal_move colour (x, y) b = Ok true ↔
     ∃ n b', apply_move colour (x, y) b = Ok (n, b') ∧ 1 ≤ n) ∧
  (_discs_to_flip b colour (x - 1) (y - 1) = Ok [] →
     legal_move colour (x, y) b = Ok false) ∧
  (¬ (1 ≤ x ≤ Py.len b ∧ 1 ≤ y ≤ Py.len b) →
     legal_move colour (x, y) b = Ok false) ∧
  (square b → ∃ r, legal_move colour (x, y) b = Ok r).
Proof.
  split; [apply legal_move_true|]. split; [|split; [|split]].
  - split.
    + intros (flips & b' & _ & Hne & _ & Hap)%apply_move_legal.
      exists (Py.len flips), b'. split; [done|].
      apply len_pos in Hne. apply Z.ltb_lt in Hne. lia.
    + intros (n & b' & (flips & Hf & -> & _)%apply_move_Ok & Hn).
      apply legal_move_true.
      exists flips. split; [done|]. apply len_pos. apply Z.ltb_lt. lia.
  - intros Hf. apply legal_move_false. by right.
  - intros Hout. apply legal_move_false. left. apply in_bounds_false. lia.
  - apply legal_move_returns.
Qed.

Lemma legal_move_iff_flips_witness :
  legal_move "Black" (9, 9) standard_board = Ok false ∧
  ∃ r, legal_move "Black" (3, 4) standard_board = Ok r.
Proof.
  split.
  - apply (legal_move_iff_flips standard_board "Black" 9 9).
    unfold Py.len. simpl. lia.
  - apply (legal_move_iff_flips standard_board "Black" 3 4).
    unfold square, standard_board. repeat constructor.
Defined.

(** ** A board without an empty cell *)

Lemma get_cell_elem b x y c :
  get_cell b x y = Ok c → ∃ row, row ∈ b ∧ c ∈ row.
Proof.
  intros ([i j] & _ & Hc)%get_cell_Ok. unfold cell_at in Hc. simpl in Hc.
  destruct (b !! j) as [row|] eqn:Hr; [|done]. simpl in Hc.
  exists row. eauto using list_elem_of_lookup_2.
Qed.

Lemma scan_row_false colour b y xs :
  (∀ x, legal_move colour (x, y) b = Ok false) →
  scan_row colour b y xs = Ok false.
Proof. intros H. induction xs as [|x xs IH]; simpl; [done|]. by rewrite H. Qed.

Lemma scan_rows_false colour b size ys :
  (∀ x y, legal_move colour (x, y) b = Ok false) →
  scan_rows colour b size ys = Ok false.
Proof.
  intros H. induction ys as [|y ys IH]; simpl; [done|].
  by rewrite scan_row_false.
Qed.

(** C8.  On a square board without an empty cell neither colour has a legal
    move, so the game is finished. *)
Theorem full_board_is_terminal (b : board) :
  square b →
  (∀ row c, row ∈ b → c ∈ row → Py.strip c ≠ "None") →
  has_any_legal_moves "Black" b = Ok false ∧
  has_any_legal_moves "White" b = Ok false ∧
  FlaskEngine.is_game_finished b = Ok true.
Proof.
  intros Hsq Hfull.
  assert (∀ colour x y, legal_move colour (x, y) b = Ok false) as Hno.
  { intros colour x y. apply legal_move_false.
    destruct (in_bounds (Py.len b) (x - 1) (y - 1)) eqn:Hin; [right|by left].
    unfold _discs_to_flip. rewrite Hin. simpl.
    destruct (square_get_cell _ _ _ Hsq Hin) as [c Hc]. rewrite Hc. simpl.
    destruct (get_cell_elem _ _ _ _ Hc) as (row & Hrow & Hcr).
    apply (Hfull _ _ Hrow), String.eqb_neq in Hcr. by rewrite Hcr. }
  assert (∀ colour, has_any_legal_moves colour b = Ok false) as Hnone.
  { intros colour. unfold has_any_legal_moves. by apply scan_rows_false. }
  unfold FlaskEngine.is_game_finished. rewrite !Hnone. done.
Qed.

Lemma full_board_is_terminal_witness :
  has_any_legal_moves "Black" [["Black"; "White"]; ["White"; "Black"]] = Ok false ∧
  has_any_legal_moves "White" [["Black"; "White"]; ["White"; "Black"]] = Ok false ∧
  FlaskEngine.is_game_finished [["Black"; "White"]; ["White"; "Black"]] = Ok true.
Proof.
  apply full_board_is_terminal.
  - repeat constructor.
  - intros row c Hrow Hc.
    repeat (apply elem_of_cons in Hrow as [->|Hrow]);
      [..|by apply elem_of_nil in Hrow];
      repeat (apply elem_of_cons in Hc as [->|Hc]);
      try (by apply elem_of_nil in Hc); by vm_compute.
Defined.

(** ** The colour argument *)

Lemma discs_to_flip_strip b c1 c2 x0 y0 :
  Py.strip c1 = Py.strip c2 →
  _discs_to_flip b c1 x0 y0 = _discs_to_flip b c2 x0 y0.
Proof. intros H. unfold _discs_to_flip. by rewrite H. Qed.

Lemma legal_move_strip b c1 c2 coord :
  Py.strip c1 = Py.strip c2 → legal_move c1 coord b = legal_move c2 coord b.
Proof.
  intros H. destruct coord as [x y]. rewrite !legal_move_unfold.
  by rewrite (discs_to_flip_strip b c1 c2).
Qed.

Lemma piece_of_not_Black colour : colour ≠ "Black" → piece_of colour = WHITE.
Proof. intros H. unfold piece_of. apply String.eqb_neq in H. by rewrite H. Qed.

(** C9.  [apply_move] compares the colour with ["Black"] as it is given:
    for every other colour string the target and every flipped cell hold
    [WHITE] after the call.  This includes [" Black "], which [legal_move]
    and [_discs_to_flip] treat as ["Black"]. *)
Theorem apply_move_piece_is_untrimmed :
  (∀ (colour : string) (x y : Z) (b : board) (n : Z) (b' : board),
     colour ≠ "Black" → apply_move colour (x, y) b = Ok (n, b') →
     ∃ flips, _discs_to_flip b colour (x - 1) (y - 1) = Ok flips ∧
              n = Py.len flips ∧
              get_cell b' (x - 1) (y - 1) = Ok WHITE ∧
              ∀ q, q ∈ flips → get_cell b' q.1 q.2 = Ok WHITE) ∧
  (∀ (coord : Z * Z) (b : board),
     legal_move " Black " coord b = legal_move "Black" coord b) ∧
  (∀ (b : board) (x0 y0 : Z),
     _discs_to_flip b " Black " x0 y0 = _discs_to_flip b "Black" x0 y0).
Proof.
  split; [|split].
  - intros colour x y b n b' Hc (flips & Hf & -> & Hs)%apply_move_Ok.
    rewrite (piece_of_not_Black _ Hc) in Hs.
    apply set_cells_Ok in Hs as (_ & _ & _ & Hset & _).
    exists flips. repeat split; [done|..].
    + apply (Hset (x - 1, y - 1)). left.
    + intros q Hq. apply Hset. by right.
  - intros coord b. by apply legal_move_strip.
  - intros b x0 y0. by apply discs_to_flip_strip.
Qed.

Lemma apply_move_piece_is_untrimmed_witness :
  legal_move " Black " (3, 4) standard_board = Ok true ∧
  ∃ b', apply_move " Black " (3, 4) standard_board = Ok (1, b') ∧
        get_cell b' 2 3 = Ok WHITE ∧ get_cell b' 3 3 = Ok WHITE.
Proof.
  split; [by vm_compute|].
  destruct (apply_move " Black " (3, 4) standard_board) as [[n b']| |] eqn:E;
    [|by vm_compute in E..].
  assert (n = 1) as -> by (vm_compute in E; congruence).
  exists b'. split; [done|].
  destruct (proj1 apply_move_piece_is_untrimmed " Black " 3 4 standard_board
              1 b' ltac:(done) E) as (flips & Hf & _ & Ht & Hfl).
  split; [exact Ht|].
  assert (flips = [(3, 3)]) as -> by (vm_compute in Hf; congruence).
  apply (Hfl (3, 3)). left.
Defined.

(** C4, as the code has it.  [_discs_to_flip] trims the colour and compares
    it with the canonical values by case: around an empty target within the
    bounds, a colour that is ["Black"] or ["White"] up to surrounding
    whitespace gives the flips of the canonical string, and every other
    colour string (["black"], [" WHITE "]) gives no flip. *)
Theorem discs_to_flip_trims_colour (b : board) (colour : string) (x0 y0 : Z)
    (c : string) :
  in_bounds (Py.len b) x0 y0 = true →
  get_cell b x0 y0 = Ok c → Py.strip c = "None" →
  (∀ canon, canon = "Black" ∨ canon = "White" → Py.strip colour = canon →
     _discs_to_flip b colour x0 y0 = _discs_to_flip b canon x0 y0) ∧
  (Py.strip colour ≠ "Black" → Py.strip colour ≠ "White" →
     _discs_to_flip b colour x0 y0 = Ok []).
Proof.
  intros Hin Hc Hn. split.
  - intros canon Hcanon Hs. apply discs_to_flip_strip.
    rewrite Hs. by destruct Hcanon as [->| ->].
  - intros HB HW. unfold _discs_to_flip. rewrite Hin, Hc. simpl.
    apply String.eqb_eq in Hn. apply String.eqb_neq in HB, HW.
    by rewrite Hn, HB, HW.
Qed.

Lemma discs_to_flip_trims_colour_witness :
  _discs_to_flip standard_board " Black " 2 3
    = _discs_to_flip standard_board "Black" 2 3 ∧
  _discs_to_flip standard_board " WHITE " 2 3 = Ok [].
Proof.
  split.
  - by apply (discs_to_flip_trims_colour standard_board " Black " 2 3 EMPTY);
      [..|by left|].
  - by apply (discs_to_flip_trims_colour standard_board " WHITE " 2 3 EMPTY).
Defined.

(** C4 as stated fails: the lower-case colour gives no flip where the
    canonical one gives a flip. *)
Lemma discs_to_flip_is_case_sensitive :
  in_bounds (Py.len standard_board) 2 3 = true ∧
  Py.strip <$> (match get_cell standard_board 2 3 with
                | Ok c => Some c | _ => None end) = Some "None" ∧
  _discs_to_flip standard_board "Black" 2 3 = Ok [(3, 3)] ∧
  _discs_to_flip standard_board "black" 2 3 = Ok [] ∧
  _discs_to_flip standard_board "black" 2 3
    ≠ _discs_to_flip standard_board "Black" 2 3 ∧
  _discs_to_flip standard_board " WHITE " 2 4 = Ok [] ∧
  _discs_to_flip standard_board "White" 2 4 = Ok [(3, 4)].
Proof. by vm_compute. Qed.

(** ** Applying a move that is not legal *)

Lemma get_cell_eq b b' x y :
  locate b' x y = locate b x y →
  (∀ p, locate b x y = Some p → cell_at b' p = cell_at b p) →
  get_cell b' x y = get_cell b x y.
Proof.
  intros Hloc Hcell. destruct (locate b x y) as [p|] eqn:E.
  - destruct (get_cell_located _ _ _ _ E) as (c & -> & Hc).
    destruct (get_cell_located _ _ _ _ Hloc) as (c' & -> & Hc').
    rewrite (Hcell p eq_refl), Hc in Hc'. congruence.
  - by rewrite !get_cell_unlocated.
Qed.

Lemma discs_to_flip_illegal colour x y b :
  legal_move colour (x, y) b = Ok false →
  _discs_to_flip b colour (x - 1) (y - 1) = Ok [].
Proof.
  intros [Hout|Hf]%legal_move_false; [|done].
  unfold _discs_to_flip. by rewrite Hout.
Qed.

(** C1, as the code has it.  Where [legal_move] returns false, [apply_move]
    does what the assignment [board[y0][x0] = piece] does and nothing else:
    it raises where the assignment raises, and otherwise returns 0 flipped
    cells after overwriting the target cell, under Python's subscripts,
    with the disc.  Every other cell holds the value it held before. *)
Theorem apply_move_illegal_overwrites_target (b : board) (colour : string)
    (x y : Z) :
  legal_move colour (x, y) b = Ok false →
  apply_move colour (x, y) b =
    (b' ← set_cell b (x - 1) (y - 1) (piece_of colour); Ok (0, b')) ∧
  ∀ n b', apply_move colour (x, y) b = Ok (n, b') →
    n = 0 ∧
    get_cell b' (x - 1) (y - 1) = Ok (piece_of colour) ∧
    ∀ x' y', locate b x' y' ≠ locate b (x - 1) (y - 1) →
             get_cell b' x' y' = get_cell b x' y'.
Proof.
  intros Hf%discs_to_flip_illegal. split.
  - rewrite apply_move_unfold, Hf. simpl.
    by destruct (set_cell b (x - 1) (y - 1) (piece_of colour)).
  - intros n b' (flips & Hf' & -> & Hs)%apply_move_Ok.
    rewrite Hf in Hf'. injection Hf' as <-. split; [done|].
    apply set_cells_Ok in Hs as (Hloc & _ & _ & Hset & Hrest). split.
    + apply (Hset (x - 1, y - 1)). left.
    + intros x' y' Hne. apply get_cell_eq; [done|].
      intros p Hp. apply Hrest. intros q ->%list_elem_of_singleton. simpl.
      congruence.
Qed.

Lemma apply_move_illegal_overwrites_target_witness :
  apply_move "Black" (1, 1) standard_board =
    (b' ← set_cell standard_board 0 0 BLACK; Ok (0, b')) ∧
  apply_move "Black" (10, 1) standard_board = Raise IndexError.
Proof.
  split.
  - by apply (apply_move_illegal_overwrites_target standard_board "Black" 1 1).
  - by rewrite (proj1 (apply_move_illegal_overwrites_target standard_board
                         "Black" 10 1 eq_refl)).
Defined.

(** C1 as stated fails: the move is not legal, and the call writes a disc
    to the target cell. *)
Lemma apply_move_illegal_is_not_a_no_op :
  legal_move "Black" (1, 1) standard_board = Ok false ∧
  get_cell standard_board 0 0 = Ok EMPTY ∧
  ∃ b', apply_move "Black" (1, 1) standard_board = Ok (0, b') ∧
        get_cell b' 0 0 = Ok BLACK ∧ b' ≠ standard_board.
Proof.
  split; [by vm_compute|]. split; [by vm_compute|].
  eexists. split; [by vm_compute|]. split; [by vm_compute|]. done.
Qed.

(** ** Exceptions *)

Lemma index_is_Some n i :
  is_Some (Py.index n i) ↔ - Z.of_nat n ≤ i < Z.of_nat n.
Proof.
  split.
  - intros [k Hk]. by eapply index_Some_range.
  - intros Hr. destruct (Py.index n i) eqn:E; [eauto|].
    by apply index_None_range in E.
Qed.

Lemma square_locate b x y :
  square b →
  is_Some (locate b x y) ↔
  (- Py.len b ≤ x < Py.len b ∧ - Py.len b ≤ y < Py.len b).
Proof.
  intros Hsq. unfold locate, Py.len. split.
  - intros [p Hp].
    destruct (Py.index (length b) y) as [j|] eqn:Ej; [|done]. simpl in Hp.
    destruct (b !! j) as [row|] eqn:Er; [|done]. simpl in Hp.
    destruct (Py.index (length row) x) as [i|] eqn:Ei; [|done].
    rewrite (Forall_lookup_1 _ _ _ _ Hsq Er) in Ei.
    split; by eapply index_Some_range.
  - intros [Hx Hy]. apply index_is_Some in Hy as [j Hj]. rewrite Hj. simpl.
    destruct (lookup_lt_is_Some_2 b j (index_lt _ _ _ Hj)) as [row Hr].
    rewrite Hr. simpl. rewrite (Forall_lookup_1 _ _ _ _ Hsq Hr).
    apply index_is_Some in Hx as [i ->]. simpl. eauto.
Qed.

(** C3, as the code has it.  On a square board [legal_move] never raises:
    it returns a boolean for every colour string and coordinate, and false
    for a colour that is neither Black nor White after trimming.
    [apply_move] returns exactly when the 0-based target is a pair of valid
    subscripts of the board, negative ones included, and raises
    [IndexError] for every other coordinate. *)
Theorem engine_exceptions (b : board) (colour : string) (x y : Z) :
  square b →
  (∃ r, legal_move colour (x, y) b = Ok r) ∧
  (Py.strip colour ≠ "Black" → Py.strip colour ≠ "White" →
     legal_move colour (x, y) b = Ok false) ∧
  (- Py.len b ≤ x - 1 < Py.len b ∧ - Py.len b ≤ y - 1 < Py.len b →
     ∃ n b', apply_move colour (x, y) b = Ok (n, b')) ∧
  (¬ (- Py.len b ≤ x - 1 < Py.len b ∧ - Py.len b ≤ y - 1 < Py.len b) →
     apply_move colour (x, y) b = Raise IndexError).
Proof.
  intros Hsq. split; [by apply legal_move_returns|]. split.
  { intros HB HW. apply legal_move_false.
    destruct (in_bounds (Py.len b) (x - 1) (y - 1)) eqn:Hin; [right|by left].
    unfold _discs_to_flip. rewrite Hin. simpl.
    destruct (square_get_cell _ _ _ Hsq Hin) as [c ->]. simpl.
    apply String.eqb_neq in HB, HW. rewrite HB, HW.
    by destruct (String.eqb (Py.strip c) "None"). }
  rewrite apply_move_unfold.
  destruct (discs_to_flip_returns b colour (x - 1) (y - 1) Hsq) as [flips Hf].
  rewrite Hf. simpl. split.
  - intros Hin%(square_locate b _ _ Hsq).
    destruct (set_cells_returns b ((x - 1, y - 1) :: flips) (piece_of colour))
      as [b' Hb'].
    { intros q [->|Hq]%elem_of_cons; [done|]. by eapply flips_located. }
    simpl in Hb'. rewrite Hb'. simpl. eauto.
  - intros Hout. rewrite <- (square_locate b _ _ Hsq) in Hout.
    rewrite set_cell_unlocated; [done|].
    destruct (locate b (x - 1) (y - 1)); [|done]. exfalso. eauto.
Qed.

Lemma engine_exceptions_witness :
  (∃ r, legal_move "Purple" (0, 12) standard_board = Ok r) ∧
  legal_move "Purple" (3, 4) standard_board = Ok false ∧
  (∃ n b', apply_move "Purple" (0, 0) standard_board = Ok (n, b')) ∧
  apply_move "Black" (9, 9) standard_board = Raise IndexError.
Proof.
  assert (square standard_board) as Hsq by (repeat constructor).
  split; [|split; [|split]].
  - by apply (engine_exceptions standard_board "Purple" 0 12).
  - by apply (engine_exceptions standard_board "Purple" 3 4 Hsq).
  - apply (engine_exceptions standard_board "Purple" 0 0 Hsq).
    unfold Py.len. simpl. lia.
  - apply (engine_exceptions standard_board "Black" 9 9 Hsq).
    unfold Py.len. simpl. lia.
Defined.

(** C3 as stated fails: beyond the board [apply_move] raises. *)
Lemma apply_move_raises_beyond_board :
  legal_move "Black" (9, 9) standard_board = Ok false ∧
  apply_move "Black" (9, 9) standard_board = Raise IndexError.
Proof. by vm_compute. Qed.

(** ** The opening position *)

Lemma initialise_board_8 : initialise_board 8 = Ok standard_board.
Proof. by vm_compute. Qed.

Lemma elem_of_range (lo hi x : Z) : x ∈ Py.range lo hi ↔ lo ≤ x < hi.
Proof.
  unfold Py.range. change (map ?f ?l) with (f <$> l).
  rewrite list_elem_of_fmap. setoid_rewrite elem_of_seq. split.
  - intros (i & -> & Hi). lia.
  - intros Hx. exists (Z.to_nat (x - lo)). lia.
Qed.

(** The legal moves of a colour on the opening position are those of a
    list, whatever the coordinate. *)
Lemma opening_moves (colour : string) (moves : list (Z * Z)) :
  Forall (λ m, 1 ≤ m.1 ≤ 8 ∧ 1 ≤ m.2 ≤ 8) moves →
  (∀ x y, x ∈ Py.range 1 9 → y ∈ Py.range 1 9 →
          legal_move colour (x, y) standard_board
            = Ok (bool_decide ((x, y) ∈ moves))) →
  ∀ x y, legal_move colour (x, y) standard_board
           = Ok (bool_decide ((x, y) ∈ moves)).
Proof.
  intros Hin Hall x y.
  destruct (decide (1 ≤ x ≤ 8 ∧ 1 ≤ y ≤ 8)) as [[Hx Hy]|Hout].
  - apply Hall; apply elem_of_range; lia.
  - rewrite bool_decide_eq_false_2.
    + apply legal_move_false. left. apply in_bounds_false.
      unfold Py.len. simpl. lia.
    + intros Hm. apply Hout. by apply (proj1 (Forall_forall _ _) Hin (x, y)).
Qed.

Lemma opening_moves_checked (colour : string) (moves : list (Z * Z)) :
  forallb (λ x, forallb (λ y,
      match legal_move colour (x, y) standard_board with
      | Ok r => Bool.eqb r (bool_decide ((x, y) ∈ moves))
      | _ => false
      end) (Py.range 1 9)) (Py.range 1 9) = true →
  ∀ x y, x ∈ Py.range 1 9 → y ∈ Py.range 1 9 →
         legal_move colour (x, y) standard_board
           = Ok (bool_decide ((x, y) ∈ moves)).
Proof.
  intros H x y Hx Hy. rewrite forallb_forall in H.
  apply list_elem_of_In, H in Hx. rewrite forallb_forall in Hx.
  apply list_elem_of_In, Hx in Hy.
  destruct (legal_move colour (x, y) standard_board) as [r| |]; [|done..].
  f_equal. by apply Bool.eqb_prop.
Qed.

(** C7, as the code has it.  On the board of [initialise_board(8)] the
    coordinates at which [legal_move] returns true for Black are exactly
    (3,4), (4,3), (5,6) and (6,5).  [legal_move] does not know whose turn it
    is: for White it returns true exactly at (3,5), (4,6), (5,3) and (6,4). *)
Theorem opening_legal_moves :
  initialise_board 8 = Ok standard_board ∧
  (∀ x y : Z,
     legal_move "Black" (x, y) standard_board
       = Ok (bool_decide ((x, y) ∈ [(3, 4); (4, 3); (5, 6); (6, 5)]))) ∧
  (∀ x y : Z,
     legal_move "White" (x, y) standard_board
       = Ok (bool_decide ((x, y) ∈ [(3, 5); (4, 6); (5, 3); (6, 4)]))).
Proof.
  split; [apply initialise_board_8|]. split.
  - apply opening_moves.
    + repeat constructor; simpl; lia.
    + apply opening_moves_checked. by vm_compute.
  - apply opening_moves.
    + repeat constructor; simpl; lia.
    + apply opening_moves_checked. by vm_compute.
Qed.

(** C7 as stated fails: White has a legal move on the opening position. *)
Lemma white_can_open :
  initialise_board 8 = Ok standard_board ∧
  legal_move "White" (3, 5) standard_board = Ok true ∧
  has_any_legal_moves "White" standard_board = Ok true.
Proof. by vm_compute. Qed.

(** ** The parser of the command line *)

(** C10.  The parser maps ["  d  6 "] to (4, 6), and raises [ValueError]
    with a message for ["Z9"], ["A0"] and ["B12"]. *)
Theorem parse_letter_number_input_scenario :
  GameEngine.parse_letter_number_input "  d  6 " = Ok (4, 6) ∧
  GameEngine.parse_letter_number_input "Z9"
    = Raise (ValueError "Column must be a letter from A to H.") ∧
  GameEngine.parse_letter_number_input "A0"
    = Raise (ValueError "Row must be between 1 and 8.") ∧
  GameEngine.parse_letter_number_input "B12"
    = Raise (ValueError "Row must be between 1 and 8.").
Proof. by vm_compute. Qed.

(** ** The turn after a move *)

Lemma scan_row_returns colour b y xs :
  square b → ∃ r, scan_row colour b y xs = Ok r.
Proof.
  intros Hsq. induction xs as [|x xs IH]; simpl; [eauto|].
  destruct (legal_move_returns colour (x, y) b Hsq) as [[|] ->]; simpl; eauto.
Qed.

Lemma scan_rows_returns colour b size ys :
  square b → ∃ r, scan_rows colour b size ys = Ok r.
Proof.
  intros Hsq. induction ys as [|y ys IH]; simpl; [eauto|].
  destruct (scan_row_returns colour b y (Py.range 1 (size + 1)) Hsq)
    as [[|] ->]; simpl; eauto.
Qed.

Lemma has_any_legal_moves_returns colour b :
  square b → ∃ r, has_any_legal_moves colour b = Ok r.
Proof. intros Hsq. by apply scan_rows_returns. Qed.

#[local] Arguments has_any_legal_moves : simpl never.

Lemma final_score_of_spec b :
  (FlaskEngine.fs_black (FlaskEngine.final_score_of b),
   FlaskEngine.fs_white (FlaskEngine.final_score_of b)) = count_pieces b ∧
  FlaskEngine.fs_winner (FlaskEngine.final_score_of b) =
    if ((count_pieces b).2 <? (count_pieces b).1)%nat then "Black wins!"
    else if ((count_pieces b).1 <? (count_pieces b).2)%nat then "White wins!"
    else "It's a draw!".
Proof.
  unfold FlaskEngine.final_score_of. by destruct (count_pieces b) as [bk wh].
Qed.

(** C5.  After a legal move of the current colour on a square board, [move]
    gives the turn to the opponent if the opponent has a legal move on the
    resulting board; otherwise it gives it back to the mover if the mover
    has one; otherwise it marks the game finished and reports the piece
    counts of the resulting board, with the colour that has strictly more
    pieces as the winner, or a draw. *)
Theorem move_resolves_next_player (gs : FlaskEngine.game_state) (x y : Z)
    (notation : Z * Z) :
  square (FlaskEngine.gs_board gs) →
  FlaskEngine.gs_game_finished gs = false →
  FlaskEngine.gs_current gs = "Black" ∨ FlaskEngine.gs_current gs = "White" →
  legal_move (FlaskEngine.gs_current gs) (x, y) (FlaskEngine.gs_board gs)
    = Ok true →
  FlaskEngine.coord_to_notation x y = Ok notation →
  ∃ flips b' resp gs' opponent_can current_can,
    apply_move (FlaskEngine.gs_current gs) (x, y) (FlaskEngine.gs_board gs)
      = Ok (flips, b') ∧
    FlaskEngine.move x y (Some gs) = Ok (resp, gs') ∧
    FlaskEngine.gs_board gs' = b' ∧
    FlaskEngine.r_board resp = b' ∧
    FlaskEngine.r_current_player resp = FlaskEngine.gs_current gs' ∧
    has_any_legal_moves (FlaskEngine.other_colour (FlaskEngine.gs_current gs)) b'
      = Ok opponent_can ∧
    has_any_legal_moves (FlaskEngine.gs_current gs) b' = Ok current_can ∧
    (opponent_can = true →
       FlaskEngine.gs_current gs'
         = FlaskEngine.other_colour (FlaskEngine.gs_current gs) ∧
       FlaskEngine.gs_game_finished gs' = false ∧
       FlaskEngine.r_finished resp = None) ∧
    (opponent_can = false → current_can = true →
       FlaskEngine.gs_current gs' = FlaskEngine.gs_current gs ∧
       FlaskEngine.gs_game_finished gs' = false ∧
       FlaskEngine.r_finished resp = None) ∧
    (opponent_can = false → current_can = false →
       FlaskEngine.gs_game_finished gs' = true ∧
       ∃ fs, FlaskEngine.r_finished resp = Some fs ∧
             (FlaskEngine.fs_black fs, FlaskEngine.fs_white fs)
               = count_pieces b' ∧
             FlaskEngine.fs_winner fs =
               if (FlaskEngine.fs_white fs <? FlaskEngine.fs_black fs)%nat
               then "Black wins!"
               else if (FlaskEngine.fs_black fs <? FlaskEngine.fs_white fs)%nat
               then "White wins!"
               else "It's a draw!").
Proof.
  destruct gs as [b current history finished]. simpl.
  intros Hsq -> Hcur Hlegal Hnot.
  destruct (apply_move_legal _ _ _ _ Hlegal) as (flips & b' & _ & _ & Hs & Hap).
  assert (square b') as Hsq'.
  { apply set_cells_Ok in Hs as (_ & Hsq' & _). by apply Hsq'. }
  destruct (has_any_legal_moves_returns (FlaskEngine.other_colour current) b' Hsq')
    as [oc Hoc].
  destruct (has_any_legal_moves_returns current b' Hsq') as [cc Hcc].
  pose proof (final_score_of_spec b') as [Hcount Hwin].
  assert (FlaskEngine.is_game_finished b' = Ok (negb oc && negb cc)) as Hfin.
  { unfold FlaskEngine.is_game_finished.
    destruct Hcur as [-> | ->];
      [change (FlaskEngine.other_colour "Black") with "White" in Hoc
      |change (FlaskEngine.other_colour "White") with "Black" in Hoc];
      rewrite ?Hoc, ?Hcc; simpl; rewrite ?Hoc, ?Hcc; simpl;
      by destruct oc, cc. }
  assert (∀ resp gs', FlaskEngine.move x y
      (Some {| FlaskEngine.gs_board := b; FlaskEngine.gs_current := current;
               FlaskEngine.gs_move_history := history;
               FlaskEngine.gs_game_finished := false |}) = Ok (resp, gs') ↔
    (next ← FlaskEngine.next_player_after current b';
     Ok ({| FlaskEngine.r_status := "success"; FlaskEngine.r_board := b';
            FlaskEngine.r_current_player := next;
            FlaskEngine.r_notation := Some notation;
            FlaskEngine.r_finished :=
              if negb oc && negb cc
              then Some (FlaskEngine.final_score_of b') else None |},
         {| FlaskEngine.gs_board := b'; FlaskEngine.gs_current := next;
            FlaskEngine.gs_move_history := history ++ [notation];
            FlaskEngine.gs_game_finished := negb oc && negb cc |}))
      = Ok (resp, gs')) as Hmove.
  { intros resp gs'. unfold FlaskEngine.move. simpl.
    rewrite Hlegal. simpl. rewrite Hap. simpl. rewrite Hnot. simpl.
    destruct (FlaskEngine.next_player_after current b'); simpl; [|done..].
    by rewrite Hfin. }
  unfold FlaskEngine.next_player_after in Hmove. rewrite Hoc in Hmove.
  simpl in Hmove.
  destruct oc; [|rewrite Hcc in Hmove; simpl in Hmove; destruct cc];
    simpl in Hmove;
    eexists (Py.len flips), b', _, _, _, _;
    (split; [done|]); (split; [by apply Hmove|]); simpl;
    repeat split; try done.
  exists (FlaskEngine.final_score_of b').
  split; [done|]. split; [done|]. rewrite Hwin. by rewrite <- Hcount.
Qed.

Lemma move_resolves_next_player_witness :
  ∃ resp gs',
    FlaskEngine.move 3 4
      (Some {| FlaskEngine.gs_board := standard_board;
               FlaskEngine.gs_current := "Black";
               FlaskEngine.gs_move_history := [];
               FlaskEngine.gs_game_finished := false |}) = Ok (resp, gs') ∧
    FlaskEngine.r_board resp = FlaskEngine.gs_board gs'.
Proof.
  destruct (move_resolves_next_player
    {| FlaskEngine.gs_board := standard_board;
       FlaskEngine.gs_current := "Black";
       FlaskEngine.gs_move_history := [];
       FlaskEngine.gs_game_finished := false |} 3 4 (67, 4))
    as (flips & b' & resp & gs' & oc & cc & _ & Hm & Hb & Hr & _).
  - repeat constructor.
  - reflexivity.
  - by left.
  - by vm_compute.
  - by vm_compute.
  - exists resp, gs'. split; [exact Hm|]. by rewrite Hb, Hr.
Defined.

(** ** Counting discs *)

Lemma count_row_sum row bk wh :
  ((count_row row bk wh).1 + (count_row row bk wh).2
   = bk + wh + sum_list (disc <$> row))%nat.
Proof.
  revert bk wh. induction row as [|c row IH]; intros bk wh; simpl; [lia|].
  change (list_fmap string nat disc row) with (disc <$> row).
  unfold disc at 1.
  destruct (String.eqb (Py.strip c) "Black");
    [|destruct (String.eqb (Py.strip c) "White")]; rewrite IH; lia.
Qed.

Lemma count_rows_sum b bk wh :
  ((count_rows b bk wh).1 + (count_rows b bk wh).2
   = bk + wh + sum_list ((λ row, sum_list (disc <$> row)) <$> b))%nat.
Proof.
  revert bk wh. induction b as [|row b IH]; intros bk wh; simpl; [lia|].
  change (list_fmap _ _ ?f b) with (f <$> b).
  pose proof (count_row_sum row bk wh) as Hrow.
  destruct (count_row row bk wh) as [bk' wh']. simpl in Hrow.
  rewrite IH. lia.
Qed.

Lemma discs_sum b :
  discs b = sum_list ((λ row, sum_list (disc <$> row)) <$> b).
Proof. unfold discs, count_pieces. by rewrite count_rows_sum. Qed.

Lemma sum_list_insert (l : list nat) (i a a' : nat) :
  l !! i = Some a → (sum_list (<[i := a']> l) + a = sum_list l + a')%nat.
Proof.
  revert i. induction l as [|h l IH]; intros [|i]; simpl; try done.
  - intros [= ->]. lia.
  - intros H. apply IH in H. lia.
Qed.

(** Overwriting a cell moves the number of discs by what the new value
    adds and the old one added. *)
Lemma put_at_discs b p v c :
  cell_at b p = Some c → (discs (put_at b p v) + disc c = discs b + disc v)%nat.
Proof.
  destruct p as [i j]. unfold cell_at, put_at. simpl. intros Hc.
  destruct (b !! j) as [row|] eqn:Hr; [|done]. simpl in Hc.
  rewrite !discs_sum, list_fmap_insert, list_fmap_insert.
  pose proof (sum_list_insert (disc <$> row) i (disc c) (disc v)) as Hrow.
  rewrite list_lookup_fmap, Hc in Hrow. specialize (Hrow eq_refl).
  pose proof (sum_list_insert ((λ row, sum_list (disc <$> row)) <$> b) j
    (sum_list (disc <$> row)) (sum_list (<[i := disc v]> (disc <$> row))))
    as Hb.
  rewrite list_lookup_fmap, Hr in Hb. specialize (Hb eq_refl). lia.
Qed.

Lemma disc_piece_of colour : disc (piece_of colour) = 1%nat.
Proof. unfold piece_of. by destruct (String.eqb colour "Black"). Qed.

(** Writing a disc over cells that hold discs keeps the number of discs. *)
Lemma set_cells_discs b cells v b' :
  disc v = 1%nat →
  (∀ q, q ∈ cells → ∃ c, get_cell b q.1 q.2 = Ok c ∧ disc c = 1%nat) →
  set_cells b cells v = Ok b' → discs b' = discs b.
Proof.
  intros Hv. revert b. induction cells as [|[fx fy] cells IH]; intros b Hc; simpl.
  - by intros [= <-].
  - intros H. apply bind_Ok_inv in H as (b1 & H1 & H).
    apply set_cell_Ok in H1 as (p0 & Hp0 & ->).
    destruct (Hc (fx, fy)) as (c0 & Hc0 & Hd0); [left|]. simpl in Hc0.
    apply get_cell_Ok in Hc0 as (p0' & Hp0' & Hat0).
    assert (p0' = p0) as -> by congruence.
    rewrite (IH (put_at b p0 v)); [|clear H|exact H].
    + pose proof (put_at_discs b p0 v c0 Hat0). lia.
    + intros q Hq. destruct (Hc q) as (c & Hcq & Hd); [by right|].
      apply get_cell_Ok in Hcq as (p & Hp & Hat).
      destruct (decide (p = p0)) as [->|Hne].
      * exists v. split; [|done]. apply get_cell_Ok. exists p0.
        rewrite put_at_locate. split; [done|].
        rewrite put_at_cell by eauto. by rewrite decide_True.
      * exists c. split; [|done]. apply get_cell_Ok. exists p.
        rewrite put_at_locate. split; [done|].
        rewrite put_at_cell by eauto. by rewrite decide_False.
Qed.

Lemma put_at_keeps_disc b x0 y0 p0 v q :
  locate b x0 y0 = Some p0 → disc v = 1%nat →
  (∃ c, get_cell b q.1 q.2 = Ok c ∧ disc c = 1%nat) →
  ∃ c, get_cell (put_at b p0 v) q.1 q.2 = Ok c ∧ disc c = 1%nat.
Proof.
  intros Hp0 Hv (c & (p & Hp & Hat)%get_cell_Ok & Hd).
  destruct (get_cell_located _ _ _ _ Hp0) as (c0 & _ & Hat0).
  destruct (decide (p = p0)) as [->|Hne].
  - exists v. split; [|done]. apply get_cell_Ok. exists p0.
    rewrite put_at_locate. split; [done|].
    rewrite put_at_cell by eauto. by rewrite decide_True.
  - exists c. split; [|done]. apply get_cell_Ok. exists p.
    rewrite put_at_locate. split; [done|].
    rewrite put_at_cell by eauto. by rewrite decide_False.
Qed.

(** ** The cells of a board by their coordinates *)

Lemma NoDup_range lo hi : NoDup (Py.range lo hi).
Proof.
  unfold Py.range. change (map ?f ?l) with (f <$> l).
  apply NoDup_fmap_2; [|apply NoDup_seq]. intros i j Hij. lia.
Qed.

Lemma elem_of_positions b q :
  q ∈ positions b ↔
  0 ≤ q.2 < Py.len b ∧ ∃ row, Py.getitem b q.2 = Ok row ∧ 0 ≤ q.1 < Py.len row.
Proof.
  unfold positions. rewrite list_elem_of_bind. split.
  - intros (y & Hq & Hy%elem_of_range).
    apply list_elem_of_bind in Hq as (x & ->%list_elem_of_singleton & Hx).
    apply elem_of_range in Hx. simpl. split; [done|].
    destruct (Py.getitem b y) as [row| |]; [|lia..]. eauto.
  - intros (Hy & row & Hr & Hx). exists q.2. split; [|by apply elem_of_range].
    apply list_elem_of_bind. exists q.1. split.
    + apply list_elem_of_singleton. by destruct q.
    + rewrite Hr. by apply elem_of_range.
Qed.

Lemma NoDup_positions b : NoDup (positions b).
Proof.
  unfold positions. apply NoDup_bind; [| |apply NoDup_range].
  - intros y1 y2 q _ _ H1 H2.
    apply list_elem_of_bind in H1 as (x1 & ->%list_elem_of_singleton & _).
    apply list_elem_of_bind in H2 as (x2 & [= _ ->]%list_elem_of_singleton & _).
    done.
  - intros y _. apply NoDup_bind; [| |apply NoDup_range].
    + intros x1 x2 q _ _ ->%list_elem_of_singleton
        [= ->]%list_elem_of_singleton. done.
    + intros x _. apply NoDup_singleton.
Qed.

Lemma index_nonneg_inv n i k : 0 ≤ i → Py.index n i = Some k → k = Z.to_nat i.
Proof.
  intros Hi H. pose proof (index_Some_range _ _ _ H) as Hr.
  rewrite index_nonneg in H by lia. congruence.
Qed.

Lemma get_cell_position b x y c :
  0 ≤ x → 0 ≤ y → get_cell b x y = Ok c →
  (x, y) ∈ positions b ∧ locate b x y = Some (Z.to_nat x, Z.to_nat y).
Proof.
  intros Hx Hy Hc. pose proof Hc as Hc'. unfold get_cell in Hc'.
  apply bind_Ok_inv in Hc' as (row & Hr & Hcx).
  pose proof Hr as (j & Hj & Hrow)%getitem_Ok.
  pose proof Hcx as (i & Hi & _)%getitem_Ok.
  pose proof (index_Some_range _ _ _ Hj). pose proof (index_Some_range _ _ _ Hi).
  split.
  - apply elem_of_positions. simpl. unfold Py.len. split; [lia|].
    exists row. split; [done|lia].
  - apply (index_nonneg_inv _ _ _ Hy) in Hj as Hj'. subst j.
    eapply locate_nonneg; eauto; unfold Py.len; lia.
Qed.

Lemma position_located b q :
  q ∈ positions b →
  0 ≤ q.1 ∧ 0 ≤ q.2 ∧ locate b q.1 q.2 = Some (Z.to_nat q.1, Z.to_nat q.2).
Proof.
  intros (Hy & row & Hr & Hx)%elem_of_positions.
  split; [lia|]. split; [lia|].
  apply getitem_Ok in Hr as (j & Hj & Hrow).
  apply (index_nonneg_inv _ _ _ (proj1 Hy)) in Hj as Hj'. subst j.
  eapply locate_nonneg; eauto.
Qed.

(** ** Conservation *)

Lemma nonneg_located_inj b q q' :
  0 ≤ q.1 → 0 ≤ q.2 → 0 ≤ q'.1 → 0 ≤ q'.2 →
  locate b q.1 q.2 = Some (Z.to_nat q.1, Z.to_nat q.2) →
  locate b q'.1 q'.2 = Some (Z.to_nat q'.1, Z.to_nat q'.2) →
  locate b q'.1 q'.2 = locate b q.1 q.2 → q' = q.
Proof.
  destruct q as [x y], q' as [x' y']. simpl.
  intros ? ? ? ? -> -> [= Hx Hy]. f_equal; lia.
Qed.

(** C6.  A legal move of Black or White adds exactly one disc to the board,
    and the flip count [apply_move] returns is the number of cells, the
    target apart, whose colour the call changed: these cells are the flips
    of [_discs_to_flip], each once. *)
Theorem apply_move_conservation (b : board) (colour : string) (x y : Z) :
  colour = "Black" ∨ colour = "White" →
  legal_move colour (x, y) b = Ok true →
  ∃ flips b',
    _discs_to_flip b colour (x - 1) (y - 1) = Ok flips ∧
    apply_move colour (x, y) b = Ok (Py.len flips, b') ∧
    discs b' = (discs b + 1)%nat ∧
    changed_cells b b' (x - 1, y - 1) ≡ₚ flips ∧
    Py.len flips = Py.len (changed_cells b b' (x - 1, y - 1)).
Proof.
  intros Hcol Hlegal.
  destruct (apply_move_legal _ _ _ _ Hlegal)
    as (flips & b' & Hf & Hne & Hs & Hap).
  exists flips, b'. split; [done|]. split; [done|].
  destruct (discs_to_flip_Ok _ _ _ _ _ Hf)
    as [->|(Hin & (c & Hc & Hcn) & _ & Hnd & Hq)]; [done|].
  assert (Py.strip colour = colour) as Hstrip
    by (by destruct Hcol as [-> | ->]).
  rewrite Hstrip in Hq.
  assert (Py.strip (piece_of colour) = colour) as Hpiece
    by (by destruct Hcol as [-> | ->]).
  assert (other_of colour ≠ colour ∧ other_of colour ≠ "None")
    as [Hoc Hon] by (by destruct Hcol as [-> | ->]).
  assert (∀ cq, Py.strip cq = other_of colour → disc cq = 1%nat) as Hdisc.
  { intros cq Hcq. unfold disc. rewrite Hcq. by destruct Hcol as [-> | ->]. }
  assert (disc c = 0%nat) as Hempty by (unfold disc; by rewrite Hcn).
  apply in_bounds_spec in Hin as [Hx0 Hy0].
  destruct (get_cell_position _ _ _ _ (proj1 Hx0) (proj1 Hy0) Hc)
    as [_ Htloc].
  assert (∀ q, q ∈ (x - 1, y - 1) :: flips →
            0 ≤ q.1 ∧ 0 ≤ q.2 ∧
            locate b q.1 q.2 = Some (Z.to_nat q.1, Z.to_nat q.2)) as Hwritten.
  { intros q [->|Hqf]%elem_of_cons; [simpl; repeat split; (lia || done)|].
    destruct (Hq q Hqf) as ([Hqx Hqy]%in_bounds_spec & cq & Hcq & _).
    destruct (get_cell_position _ _ _ _ (proj1 Hqx) (proj1 Hqy) Hcq) as [_ ?].
    repeat split; (lia || done). }
  assert (changed_cells b b' (x - 1, y - 1) ≡ₚ flips) as Hperm.
  { apply set_cells_Ok in Hs as (Hloc & _ & _ & Hset & Hrest).
    apply NoDup_Permutation;
      [apply NoDup_filter, NoDup_positions | done |].
    intros q. unfold changed_cells. rewrite list_elem_of_filter. split.
    - intros [[Hqt Hchg] Hpos]. destruct (decide (q ∈ flips)) as [|Hqf]; [done|].
      exfalso. apply Hchg. unfold colour_at.
      destruct (position_located _ _ Hpos) as (Hqx & Hqy & Hqloc).
      rewrite (get_cell_eq b b' q.1 q.2); [done|apply Hloc|].
      intros p Hp. apply Hrest. intros q' Hq' Hq'p.
      destruct (Hwritten q' Hq') as (Hx' & Hy' & Hloc').
      assert (q' = q) as ->.
      { apply (nonneg_located_inj b); try done. congruence. }
      apply elem_of_cons in Hq' as [->|Hq']; done.
    - intros Hqf. destruct (Hq q Hqf) as ([Hqx Hqy]%in_bounds_spec & cq & Hcq & Hsq).
      destruct (get_cell_position _ _ _ _ (proj1 Hqx) (proj1 Hqy) Hcq)
        as [Hpos _].
      split; [|by destruct q]. split.
      + intros ->. simpl in Hcq. congruence.
      + unfold colour_at. rewrite Hcq.
        rewrite (Hset q) by (by right). rewrite Hsq, Hpiece. congruence. }
  split; [|split; [done|]].
  - simpl in Hs. apply bind_Ok_inv in Hs as (b1 & H1 & H2).
    apply set_cell_Ok in H1 as (pt & Hpt & ->).
    apply get_cell_Ok in Hc as (pt' & Hpt' & Hat).
    assert (pt' = pt) as -> by congruence.
    pose proof (put_at_discs b pt (piece_of colour) c Hat) as Hput.
    rewrite disc_piece_of, Hempty in Hput.
    assert (discs b' = discs (put_at b pt (piece_of colour))) as ->; [|lia].
    apply (set_cells_discs _ flips (piece_of colour));
      [apply disc_piece_of| |done].
    intros q Hqf. apply (put_at_keeps_disc b (x - 1) (y - 1));
      [done|apply disc_piece_of|].
    destruct (Hq q Hqf) as (_ & cq & Hcq & Hsq). eauto.
  - unfold Py.len. f_equal. symmetry. by apply Permutation_length.
Qed.

Lemma apply_move_conservation_witness :
  ∃ (flips : list (Z * Z)) (b' : board),
    apply_move "Black" (3, 4) standard_board = Ok (Py.len flips, b') ∧
    discs b' = (discs standard_board + 1)%nat ∧
    Py.len flips = Py.len (changed_cells standard_board b' (2, 3)).
Proof.
  destruct (apply_move_conservation standard_board "Black" 3 4)
    as (flips & b' & _ & Ha & Hd & _ & Hn).
  - by left.
  - by vm_compute.
  - exists flips, b'. split; [exact Ha|]. split; [exact Hd|exact Hn].
Defined.

(** * Further properties of the engine *)

(** ** The scan for a legal move *)

Lemma legal_move_true_in_range colour x y b :
  legal_move colour (x, y) b = Ok true →
  1 ≤ x ≤ Py.len b ∧ 1 ≤ y ≤ Py.len b.
Proof.
  rewrite legal_move_unfold.
  destruct (in_bounds (Py.len b) (x - 1) (y - 1)) eqn:Hin; [|done].
  apply in_bounds_spec in Hin. lia.
Qed.

Lemma scan_row_decides colour b y xs :
  square b →
  ∃ r, scan_row colour b y xs = Ok r ∧
       (r = true ↔ ∃ x, x ∈ xs ∧ legal_move colour (x, y) b = Ok true).
Proof.
  intros Hsq. induction xs as [|x xs (r & Hr & IH)]; simpl.
  - exists false. split; [done|]. split; [done|].
    intros (x & Hx & _). by apply elem_of_nil in Hx.
  - destruct (legal_move_returns colour (x, y) b Hsq) as [[|] Hl];
      rewrite Hl; simpl.
    + exists true. split; [done|]. split; [|done]. intros _. exists x.
      split; [left|done].
    + exists r. split; [done|]. rewrite IH. split.
      * intros (x' & Hx' & Hl'). exists x'. split; [by right|done].
      * intros (x' & [->|Hx']%elem_of_cons & Hl'); [congruence|eauto].
Qed.

Lemma scan_rows_decides colour b size ys :
  square b →
  ∃ r, scan_rows colour b size ys = Ok r ∧
       (r = true ↔ ∃ x y, x ∈ Py.range 1 (size + 1) ∧ y ∈ ys ∧
                          legal_move colour (x, y) b = Ok true).
Proof.
  intros Hsq. induction ys as [|y ys (r & Hr & IH)]; simpl.
  - exists false. split; [done|]. split; [done|].
    intros (x & y & _ & Hy & _). by apply elem_of_nil in Hy.
  - destruct (scan_row_decides colour b y (Py.range 1 (size + 1)) Hsq)
      as ([|] & Hrow & Hiff); rewrite Hrow; simpl.
    + exists true. split; [done|]. split; [|done]. intros _.
      destruct (proj1 Hiff eq_refl) as (x & Hx & Hl).
      exists x, y. split; [done|]. split; [left|done].
    + exists r. split; [done|]. rewrite IH. split.
      * intros (x & y' & Hx & Hy' & Hl). exists x, y'.
        split; [done|]. split; [by right|done].
      * intros (x & y' & Hx & [->|Hy']%elem_of_cons & Hl); [|eauto 6].
        assert (false = true); [|done]. apply Hiff. eauto.
Qed.

Lemma has_any_legal_moves_decides colour b :
  square b →
  ∃ r, has_any_legal_moves colour b = Ok r ∧
       (r = true ↔ ∃ coord, legal_move colour coord b = Ok true).
Proof.
  intros Hsq. unfold has_any_legal_moves.
  destruct (scan_rows_decides colour b (Py.len b)
              (Py.range 1 (Py.len b + 1)) Hsq) as (r & Hr & Hiff).
  exists r. split; [done|]. rewrite Hiff. split.
  - intros (x & y & _ & _ & Hl). by exists (x, y).
  - intros ([x y] & Hl). exists x, y.
    destruct (legal_move_true_in_range _ _ _ _ Hl) as [Hx Hy].
    rewrite !elem_of_range. repeat split; (lia || done).
Qed.

(** X1.  On a square board [has_any_legal_moves] returns, and it returns
    true exactly when [legal_move] returns true at some coordinate: the
    scan of the coordinates 1..size misses no legal move. *)
Theorem has_any_legal_moves_finds_every_move (b : board) (colour : string) :
  square b →
  ∃ r, has_any_legal_moves colour b = Ok r ∧
       (r = true ↔ ∃ coord, legal_move colour coord b = Ok true) ∧
       (r = false ↔ ∀ coord, legal_move colour coord b = Ok false).
Proof.
  intros Hsq.
  destruct (has_any_legal_moves_decides colour b Hsq) as (r & Hr & Hiff).
  exists r. split; [done|]. split; [done|]. split.
  - intros -> coord.
    destruct (legal_move_returns colour coord b Hsq) as [[|] Hl]; [|done].
    assert (false = true); [|done]. apply Hiff. eauto.
  - intros Hall. destruct r; [|done].
    destruct (proj1 Hiff eq_refl) as (coord & Hl). rewrite Hall in Hl. done.
Qed.

Lemma has_any_legal_moves_finds_every_move_witness :
  ∃ r, has_any_legal_moves "White" standard_board = Ok r ∧
       (r = true ↔ ∃ coord, legal_move "White" coord standard_board = Ok true) ∧
       (r = false ↔ ∀ coord, legal_move "White" coord standard_board = Ok false).
Proof.
  apply (has_any_legal_moves_finds_every_move standard_board "White").
  repeat constructor.
Defined.

(** X2.  On a square board [is_game_finished] returns true exactly when
    [legal_move] returns false at every coordinate for Black and for White,
    and false as soon as one of them has a legal move somewhere. *)
Theorem is_game_finished_iff_no_move (b : board) :
  square b →
  ∃ r, FlaskEngine.is_game_finished b = Ok r ∧
       (r = true ↔ ∀ coord, legal_move "Black" coord b = Ok false ∧
                            legal_move "White" coord b = Ok false) ∧
       (r = false ↔ ∃ colour coord, (colour = "Black" ∨ colour = "White") ∧
                                    legal_move colour coord b = Ok true).
Proof.
  intros Hsq.
  destruct (has_any_legal_moves_decides "Black" b Hsq) as (rb & Hrb & Hb).
  destruct (has_any_legal_moves_decides "White" b Hsq) as (rw & Hrw & Hw).
  assert (∀ colour coord, legal_move colour coord b = Ok false ↔
            legal_move colour coord b ≠ Ok true) as Hneg.
  { intros colour coord.
    destruct (legal_move_returns colour coord b Hsq) as [[|] ->]; split;
      congruence. }
  exists (negb rb && negb rw). split.
  { unfold FlaskEngine.is_game_finished. rewrite Hrb. simpl.
    destruct rb; simpl; [done|]. rewrite Hrw. simpl. by destruct rw. }
  split.
  - split.
    + intros [Hnb Hnw]%andb_true_iff coord. rewrite !Hneg.
      split; intros Hl.
      * destruct rb; [done|]. assert (false = true); [|done]. apply Hb. eauto.
      * destruct rw; [by destruct rb|].
        assert (false = true); [|done]. apply Hw. eauto.
    + intros Hall. apply andb_true_iff. split.
      * destruct rb; [|done]. destruct (proj1 Hb eq_refl) as (coord & Hl).
        destruct (Hall coord) as [Hf _]. congruence.
      * destruct rw; [|done]. destruct (proj1 Hw eq_refl) as (coord & Hl).
        destruct (Hall coord) as [_ Hf]. congruence.
  - split.
    + intros [Hrb'|Hrw']%andb_false_iff.
      * destruct rb; [|done]. destruct (proj1 Hb eq_refl) as (coord & Hl).
        exists "Black", coord. split; [by left|done].
      * destruct rw; [|done]. destruct (proj1 Hw eq_refl) as (coord & Hl).
        exists "White", coord. split; [by right|done].
    + intros (colour & coord & [-> | ->] & Hl).
      * rewrite (proj2 Hb) by eauto. done.
      * rewrite (proj2 Hw) by eauto. by destruct rb.
Qed.

Lemma is_game_finished_iff_no_move_witness :
  ∃ r, FlaskEngine.is_game_finished standard_board = Ok r ∧
       (r = false ↔ ∃ colour coord, (colour = "Black" ∨ colour = "White") ∧
                      legal_move colour coord standard_board = Ok true).
Proof.
  destruct (is_game_finished_iff_no_move standard_board) as (r & Hr & _ & Hf).
  - repeat constructor.
  - exists r. split; [exact Hr|exact Hf].
Defined.

(** ** What a move writes *)

Lemma put_at_shape b p v : length <$> put_at b p v = length <$> b.
Proof.
  apply list_eq. intros j. rewrite !list_lookup_fmap, put_at_row.
  destruct (b !! j) as [row|]; [|done]. simpl.
  destruct (decide (j = p.2)); [by rewrite length_insert|done].
Qed.

Lemma set_cells_shape b cells v b' :
  set_cells b cells v = Ok b' → length <$> b' = length <$> b.
Proof.
  revert b. induction cells as [|[fx fy] cells IH]; intros b; simpl.
  - by intros [= <-].
  - intros H. apply bind_Ok_inv in H as (b1 & H1 & H).
    apply set_cell_Ok in H1 as (p0 & _ & ->).
    rewrite (IH _ H). apply put_at_shape.
Qed.

(** After the writes a cell holds what it held, or the value written. *)
Lemma set_cells_cell_cases b cells v b' p :
  set_cells b cells v = Ok b' →
  cell_at b' p = cell_at b p ∨ (cell_at b' p = Some v ∧ is_Some (cell_at b p)).
Proof.
  revert b. induction cells as [|[fx fy] cells IH]; intros b; simpl.
  - intros [= <-]. by left.
  - intros H. apply bind_Ok_inv in H as (b1 & H1 & H).
    apply set_cell_Ok in H1 as (p0 & Hp0 & ->).
    destruct (get_cell_located _ _ _ _ Hp0) as (c0 & _ & Hc0).
    assert (cell_at (put_at b p0 v) p =
            if decide (p = p0) then Some v else cell_at b p) as Hput.
    { apply put_at_cell. eauto. }
    destruct (IH _ H) as [Hsame|[Hv Hsome]]; rewrite Hput in *.
    + destruct (decide (p = p0)) as [->|]; [right|by left].
      split; [done|]. eauto.
    + right. split; [done|]. destruct (decide (p = p0)) as [->|]; eauto.
Qed.

Lemma strip_piece_of colour : Py.strip (piece_of colour) ≠ "None".
Proof. unfold piece_of. by destruct (String.eqb colour "Black"). Qed.

(** X3.  [apply_move] never empties a cell: a cell that held something other
    than the empty value before the call still does after it.  The target
    itself holds a disc afterwards, so [legal_move] returns false at the
    coordinate just played, for every colour. *)
Theorem apply_move_never_empties (b : board) (colour : string) (x y n : Z)
    (b' : board) :
  apply_move colour (x, y) b = Ok (n, b') →
  (∀ x' y' c, get_cell b x' y' = Ok c → Py.strip c ≠ "None" →
     ∃ c', get_cell b' x' y' = Ok c' ∧ Py.strip c' ≠ "None") ∧
  (∀ colour', legal_move colour' (x, y) b' = Ok false).
Proof.
  intros (flips & Hf & -> & Hs)%apply_move_Ok. split.
  - intros x' y' c (p & Hp & Hat)%get_cell_Ok Hocc.
    pose proof (set_cells_Ok _ _ _ _ Hs) as (Hloc & _).
    destruct (set_cells_cell_cases _ _ _ _ p Hs) as [Hsame|[Hv _]].
    + exists c. split; [|done]. apply get_cell_Ok. exists p.
      rewrite Hloc, Hsame. done.
    + exists (piece_of colour). split; [|apply strip_piece_of].
      apply get_cell_Ok. exists p. by rewrite Hloc.
  - intros colour'. apply legal_move_false.
    destruct (in_bounds (Py.len b') (x - 1) (y - 1)) eqn:Hin; [right|by left].
    apply set_cells_Ok in Hs as (_ & _ & _ & Hset & _).
    specialize (Hset (x - 1, y - 1)). simpl in Hset.
    unfold _discs_to_flip. rewrite Hin. simpl. rewrite Hset by left. simpl.
    pose proof (strip_piece_of colour) as Hne. apply String.eqb_neq in Hne.
    by rewrite Hne.
Qed.

Lemma apply_move_never_empties_witness :
  ∃ b', apply_move "Black" (3, 4) standard_board = Ok (1, b') ∧
        legal_move "White" (3, 4) b' = Ok false ∧
        ∃ c', get_cell b' 3 3 = Ok c' ∧ Py.strip c' ≠ "None".
Proof.
  destruct (apply_move "Black" (3, 4) standard_board) as [[n b']| |] eqn:E;
    [|by vm_compute in E..].
  assert (n = 1) as -> by (vm_compute in E; congruence).
  exists b'. split; [done|].
  destruct (apply_move_never_empties standard_board "Black" 3 4 1 b' E)
    as [Hkeep Hocc].
  split; [apply Hocc|]. by apply (Hkeep 3 3 WHITE).
Defined.

(** X4.  [apply_move] keeps the dimensions of the board, writes its disc to
    the target and to every cell of the flip set, and leaves every other
    cell with the value it held. *)
Theorem apply_move_writes_only_target_and_flips (b : board) (colour : string)
    (x y n : Z) (b' : board) :
  apply_move colour (x, y) b = Ok (n, b') →
  ∃ flips,
    _discs_to_flip b colour (x - 1) (y - 1) = Ok flips ∧
    n = Py.len flips ∧
    length <$> b' = length <$> b ∧
    (∀ q, q ∈ (x - 1, y - 1) :: flips →
          get_cell b' q.1 q.2 = Ok (piece_of colour)) ∧
    (∀ x' y',
       (∀ q, q ∈ (x - 1, y - 1) :: flips →
             locate b q.1 q.2 ≠ locate b x' y') →
       get_cell b' x' y' = get_cell b x' y').
Proof.
  intros (flips & Hf & -> & Hs)%apply_move_Ok. exists flips.
  split; [done|]. split; [done|]. split; [by eapply set_cells_shape|].
  apply set_cells_Ok in Hs as (Hloc & _ & _ & Hset & Hrest).
  split; [done|]. intros x' y' Hother. apply get_cell_eq; [done|].
  intros p Hp. apply Hrest. intros q Hq Hqp. apply (Hother q Hq). congruence.
Qed.

Lemma apply_move_writes_only_target_and_flips_witness :
  ∃ b', apply_move "Black" (3, 4) standard_board = Ok (1, b') ∧
        length <$> b' = length <$> standard_board ∧
        get_cell b' 0 0 = get_cell standard_board 0 0.
Proof.
  destruct (apply_move "Black" (3, 4) standard_board) as [[n b']| |] eqn:E;
    [|by vm_compute in E..].
  assert (n = 1) as -> by (vm_compute in E; congruence).
  exists b'. split; [done|].
  destruct (apply_move_writes_only_target_and_flips standard_board "Black"
              3 4 1 b' E) as (flips & Hf & _ & Hshape & _ & Hframe).
  split; [exact Hshape|]. apply Hframe.
  assert (flips = [(3, 3)]) as -> by (vm_compute in Hf; congruence).
  intros q Hq.
  repeat (apply elem_of_cons in Hq as [->|Hq]); [..|by apply elem_of_nil in Hq];
    by vm_compute.
Defined.

(** ** Bracketing *)

Lemma colour_at_Some b q col :
  colour_at b q = Some col ↔ ∃ c, get_cell b q.1 q.2 = Ok c ∧ Py.strip c = col.
Proof.
  unfold colour_at. destruct (get_cell b q.1 q.2) as [c| |]; split.
  - intros [= <-]. eauto.
  - intros (c' & [= <-] & <-). done.
  - done.
  - by intros (c' & ? & _).
  - done.
  - by intros (c' & ? & _).
Qed.

(** A walk that adds cells ran over opponent cells up to a cell of the
    mover's colour. *)
Lemma walk_bracket fuel b size me other dx dy cx cy line l :
  walk fuel b size me other dx dy cx cy line = Ok l →
  l = [] ∨
  ∃ n : nat,
    l = line ++ ray dx dy cx cy n ∧
    (∀ k : nat, (k < n)%nat →
       in_bounds size (cx + Z.of_nat k * dx) (cy + Z.of_nat k * dy) = true ∧
       ∃ c, get_cell b (cx + Z.of_nat k * dx) (cy + Z.of_nat k * dy) = Ok c ∧
            Py.strip c = other) ∧
    in_bounds size (cx + Z.of_nat n * dx) (cy + Z.of_nat n * dy) = true ∧
    ∃ c, get_cell b (cx + Z.of_nat n * dx) (cy + Z.of_nat n * dy) = Ok c ∧
         Py.strip c = me.
Proof.
  revert cx cy line. induction fuel as [|fuel IH]; intros cx cy line; [done|].
  simpl. destruct (in_bounds size cx cy) eqn:Hin; [|intros [= <-]; by left].
  destruct (get_cell b cx cy) as [c| |] eqn:Hc; simpl; [|done..].
  destruct (String.eqb (Py.strip c) other) eqn:Ho.
  - intros H. apply IH in H as [->|(n & -> & Hrun & Hend & Hme)]; [by left|].
    right. exists (S n). simpl. rewrite <- app_assoc. split; [done|].
    apply String.eqb_eq in Ho. split; [|split].
    + intros [|k] Hk.
      * replace (cx + Z.of_nat 0 * dx) with cx by lia.
        replace (cy + Z.of_nat 0 * dy) with cy by lia. eauto.
      * replace (cx + Z.of_nat (S k) * dx) with (cx + dx + Z.of_nat k * dx)
          by lia.
        replace (cy + Z.of_nat (S k) * dy) with (cy + dy + Z.of_nat k * dy)
          by lia.
        apply Hrun. lia.
    + replace (cx + Z.of_nat (S n) * dx) with (cx + dx + Z.of_nat n * dx)
        by lia.
      replace (cy + Z.of_nat (S n) * dy) with (cy + dy + Z.of_nat n * dy)
        by lia.
      done.
    + replace (cx + Z.of_nat (S n) * dx) with (cx + dx + Z.of_nat n * dx)
        by lia.
      replace (cy + Z.of_nat (S n) * dy) with (cy + dy + Z.of_nat n * dy)
        by lia.
      done.
  - destruct (String.eqb (Py.strip c) me) eqn:Hm; [|intros [= <-]; by left].
    intros [= <-]. destruct line as [|q line]; [by left|]. right. exists 0%nat.
    simpl. rewrite app_nil_r. split; [done|]. split; [intros k Hk; lia|].
    replace (cx + Z.of_nat 0 * dx) with cx by lia.
    replace (cy + Z.of_nat 0 * dy) with cy by lia.
    apply String.eqb_eq in Hm. eauto.
Qed.

(** Over a run of opponent cells closed by a cell of the mover's colour, a
    walk adds the run. *)
Lemma walk_complete (n : nat) fuel b size me other dx dy cx cy line :
  me ≠ other →
  enough fuel size dx dy cx cy →
  (∀ k : nat, (k < n)%nat →
     in_bounds size (cx + Z.of_nat k * dx) (cy + Z.of_nat k * dy) = true ∧
     ∃ c, get_cell b (cx + Z.of_nat k * dx) (cy + Z.of_nat k * dy) = Ok c ∧
          Py.strip c = other) →
  in_bounds size (cx + Z.of_nat n * dx) (cy + Z.of_nat n * dy) = true →
  (∃ c, get_cell b (cx + Z.of_nat n * dx) (cy + Z.of_nat n * dy) = Ok c ∧
        Py.strip c = me) →
  walk fuel b size me other dx dy cx cy line
    = Ok (line ++ ray dx dy cx cy n).
Proof.
  intros Hne. revert fuel cx cy line.
  induction n as [|n IH]; intros fuel cx cy line Hfuel Hrun Hend Hme.
  - destruct fuel as [|fuel]; [destruct Hfuel; lia|]. simpl.
    replace (cx + Z.of_nat 0 * dx) with cx in * by lia.
    replace (cy + Z.of_nat 0 * dy) with cy in * by lia.
    rewrite Hend. destruct Hme as (c & -> & Hc). simpl.
    assert (String.eqb (Py.strip c) other = false) as ->
      by (apply String.eqb_neq; congruence).
    assert (String.eqb (Py.strip c) me = true) as ->
      by (by apply String.eqb_eq).
    rewrite app_nil_r. by destruct line.
  - destruct fuel as [|fuel]; [destruct Hfuel; lia|]. simpl.
    destruct (Hrun 0%nat) as (Hin & c & Hc & Ho); [lia|].
    replace (cx + Z.of_nat 0 * dx) with cx in * by lia.
    replace (cy + Z.of_nat 0 * dy) with cy in * by lia.
    rewrite Hin, Hc. simpl.
    assert (String.eqb (Py.strip c) other = true) as ->
      by (by apply String.eqb_eq).
    rewrite (IH fuel (cx + dx) (cy + dy) (line ++ [(cx, cy)])).
    + by rewrite <- app_assoc.
    + by apply enough_step.
    + intros k Hk.
      replace (cx + dx + Z.of_nat k * dx) with (cx + Z.of_nat (S k) * dx)
        by lia.
      replace (cy + dy + Z.of_nat k * dy) with (cy + Z.of_nat (S k) * dy)
        by lia.
      apply Hrun. lia.
    + replace (cx + dx + Z.of_nat n * dx) with (cx + Z.of_nat (S n) * dx)
        by lia.
      replace (cy + dy + Z.of_nat n * dy) with (cy + Z.of_nat (S n) * dy)
        by lia.
      done.
    + replace (cx + dx + Z.of_nat n * dx) with (cx + Z.of_nat (S n) * dx)
        by lia.
      replace (cy + dy + Z.of_nat n * dy) with (cy + Z.of_nat (S n) * dy)
        by lia.
      done.
Qed.

(** The flips are the cells the walks of the directions add. *)
Lemma walk_all_elem b size me other x0 y0 dirs acc fl :
  walk_all b size me other x0 y0 dirs acc = Ok fl →
  ∀ q, q ∈ fl ↔
       q ∈ acc ∨
       ∃ d l, d ∈ dirs ∧
              walk (Z.to_nat size) b size me other d.1 d.2
                (x0 + d.1) (y0 + d.2) [] = Ok l ∧
              q ∈ l.
Proof.
  revert acc. induction dirs as [|[dx dy] dirs IH]; intros acc.
  - intros [= <-] q. split; [by left|].
    intros [Hq|(d & l & Hd & _)]; [done|]. by apply elem_of_nil in Hd.
  - unfold walk_all; fold walk_all. intros H.
    apply bind_Ok_inv in H as (line & Hw & H). intros q.
    rewrite (IH _ H q), elem_of_app. split.
    + intros [[Hq|Hq]|(d & l & Hd & Hl & Hq)].
      * by left.
      * right. exists (dx, dy), line. split; [left|done].
      * right. exists d, l. split; [by right|done].
    + intros [Hq|(d & l & [->|Hd]%elem_of_cons & Hl & Hq)].
      * by left; left.
      * simpl in Hl. rewrite Hw in Hl. injection Hl as <-. by left; right.
      * right. eauto.
Qed.

Lemma other_of_differs me : me = "Black" ∨ me = "White" → me ≠ other_of me.
Proof. by intros [-> | ->]. Qed.

Lemma walk_all_brackets b me other x0 y0 fl :
  me ≠ other → 0 ≤ x0 < Py.len b → 0 ≤ y0 < Py.len b →
  walk_all b (Py.len b) me other x0 y0 DIRECTIONS [] = Ok fl →
  ∀ q, q ∈ fl ↔
       ∃ d n k, d ∈ DIRECTIONS ∧ bracket b me other x0 y0 d n ∧
                1 ≤ k ≤ n ∧ q = (x0 + k * d.1, y0 + k * d.2).
Proof.
  intros Hne Hx Hy H q. rewrite (walk_all_elem _ _ _ _ _ _ _ _ _ H q). split.
  - intros [Hq|([dx dy] & l & Hd & Hw & Hq)]; [by apply elem_of_nil in Hq|].
    simpl in Hw.
    apply walk_bracket in Hw as [->|(n & -> & Hrun & Hend & Hme)];
      [by apply elem_of_nil in Hq|].
    simpl in Hq. apply ray_elem in Hq as (k & Hk & ->).
    exists (dx, dy), (Z.of_nat n), (Z.of_nat k + 1). split; [done|].
    split; [|split; [lia|simpl; f_equal; lia]].
    split; [lia|]. simpl. split; [|split].
    + intros i Hi. destruct (Hrun (Z.to_nat (i - 1))) as [Hin Hc]; [lia|].
      rewrite Z2Nat.id in Hin, Hc by lia.
      replace (x0 + dx + (i - 1) * dx) with (x0 + i * dx) in * by lia.
      replace (y0 + dy + (i - 1) * dy) with (y0 + i * dy) in * by lia.
      split; [done|]. by apply colour_at_Some.
    + replace (x0 + (Z.of_nat n + 1) * dx) with (x0 + dx + Z.of_nat n * dx)
        by lia.
      replace (y0 + (Z.of_nat n + 1) * dy) with (y0 + dy + Z.of_nat n * dy)
        by lia.
      done.
    + apply colour_at_Some. simpl.
      replace (x0 + (Z.of_nat n + 1) * dx) with (x0 + dx + Z.of_nat n * dx)
        by lia.
      replace (y0 + (Z.of_nat n + 1) * dy) with (y0 + dy + Z.of_nat n * dy)
        by lia.
      done.
  - intros ([dx dy] & n & k & Hd & (Hn & Hrun & Hend & Hme) & Hk & ->).
    simpl in *. right.
    exists (dx, dy), (ray dx dy (x0 + dx) (y0 + dy) (Z.to_nat n)).
    split; [done|]. simpl. split.
    + apply (walk_complete (Z.to_nat n) _ _ _ _ _ _ _ _ _ []); [done|..].
      * apply (enough_start (Py.len b) (dx, dy)); [|done..].
        by apply (proj1 (Forall_forall _ _) compass_DIRECTIONS).
      * intros j Hj. destruct (Hrun (Z.of_nat j + 1)) as [Hin Hc]; [lia|].
        apply colour_at_Some in Hc. simpl in Hc.
        replace (x0 + dx + Z.of_nat j * dx) with (x0 + (Z.of_nat j + 1) * dx)
          by lia.
        replace (y0 + dy + Z.of_nat j * dy) with (y0 + (Z.of_nat j + 1) * dy)
          by lia.
        done.
      * rewrite Z2Nat.id by lia.
        replace (x0 + dx + n * dx) with (x0 + (n + 1) * dx) by lia.
        replace (y0 + dy + n * dy) with (y0 + (n + 1) * dy) by lia.
        done.
      * apply colour_at_Some in Hme. simpl in Hme. rewrite Z2Nat.id by lia.
        replace (x0 + dx + n * dx) with (x0 + (n + 1) * dx) by lia.
        replace (y0 + dy + n * dy) with (y0 + (n + 1) * dy) by lia.
        done.
    + apply ray_elem. exists (Z.to_nat (k - 1)). split; [lia|].
      rewrite Z2Nat.id by lia. f_equal; lia.
Qed.

Lemma discs_to_flip_walks b colour x0 y0 :
  in_bounds (Py.len b) x0 y0 = true →
  colour_at b (x0, y0) = Some "None" →
  Py.strip colour = "Black" ∨ Py.strip colour = "White" →
  _discs_to_flip b colour x0 y0 =
    walk_all b (Py.len b) (Py.strip colour) (other_of (Py.strip colour))
      x0 y0 DIRECTIONS [].
Proof.
  intros Hin (c & Hc & Hn)%colour_at_Some Hme. simpl in Hc.
  unfold _discs_to_flip. rewrite Hin, Hc. simpl.
  apply String.eqb_eq in Hn. rewrite Hn. simpl.
  by destruct Hme as [-> | ->].
Qed.

Lemma discs_to_flip_elem b colour x0 y0 flips :
  _discs_to_flip b colour x0 y0 = Ok flips →
  ∀ q, q ∈ flips ↔
       (in_bounds (Py.len b) x0 y0 = true ∧
        colour_at b (x0, y0) = Some "None" ∧
        (Py.strip colour = "Black" ∨ Py.strip colour = "White") ∧
        ∃ d n k,
          d ∈ DIRECTIONS ∧
          bracket b (Py.strip colour) (other_of (Py.strip colour)) x0 y0 d n ∧
          1 ≤ k ≤ n ∧ q = (x0 + k * d.1, y0 + k * d.2)).
Proof.
  intros H q. split.
  - intros Hq.
    destruct (discs_to_flip_Ok _ _ _ _ _ H)
      as [->|(Hin & Hc & Hme & _)]; [by apply elem_of_nil in Hq|].
    apply (proj2 (colour_at_Some b (x0, y0) "None")) in Hc.
    rewrite discs_to_flip_walks in H by done.
    split; [done|]. split; [done|]. split; [done|].
    pose proof Hin as [Hx Hy]%in_bounds_spec.
    by apply (walk_all_brackets _ _ _ _ _ _ (other_of_differs _ Hme) Hx Hy H).
  - intros (Hin & Hc & Hme & Hbr).
    rewrite discs_to_flip_walks in H by done.
    pose proof Hin as [Hx Hy]%in_bounds_spec.
    by apply (walk_all_brackets _ _ _ _ _ _ (other_of_differs _ Hme) Hx Hy H).
Qed.

(** X5.  The cells [_discs_to_flip] returns are exactly the bracketed ones:
    a cell is in the list if and only if the target is an empty cell within
    the bounds, the colour is Black or White after trimming, and the cell
    lies in one of the eight directions in a run of opponent cells that
    starts next to the target and ends on a cell of the mover's colour.  No
    cell is listed twice. *)
Theorem flips_are_the_bracketed_cells (b : board) (colour : string)
    (x0 y0 : Z) (flips : list (Z * Z)) :
  _discs_to_flip b colour x0 y0 = Ok flips →
  NoDup flips ∧
  ∀ q, q ∈ flips ↔
       (in_bounds (Py.len b) x0 y0 = true ∧
        colour_at b (x0, y0) = Some "None" ∧
        (Py.strip colour = "Black" ∨ Py.strip colour = "White") ∧
        ∃ d n k,
          d ∈ DIRECTIONS ∧
          bracket b (Py.strip colour) (other_of (Py.strip colour)) x0 y0 d n ∧
          1 ≤ k ≤ n ∧ q = (x0 + k * d.1, y0 + k * d.2)).
Proof.
  intros H. split; [|by apply discs_to_flip_elem].
  destruct (discs_to_flip_Ok _ _ _ _ _ H) as [->|(_ & _ & _ & Hnd & _)];
    [constructor|done].
Qed.

Lemma flips_are_the_bracketed_cells_witness :
  NoDup [(3, 3)] ∧
  ((3, 3) ∈ [(3, 3)] ↔
     (in_bounds (Py.len standard_board) 2 3 = true ∧
      colour_at standard_board (2, 3) = Some "None" ∧
      (Py.strip "Black" = "Black" ∨ Py.strip "Black" = "White") ∧
      ∃ d n k,
        d ∈ DIRECTIONS ∧
        bracket standard_board (Py.strip "Black")
          (other_of (Py.strip "Black")) 2 3 d n ∧
        1 ≤ k ≤ n ∧ (3, 3) = (2 + k * d.1, 3 + k * d.2))).
Proof.
  destruct (flips_are_the_bracketed_cells standard_board "Black" 2 3 [(3, 3)])
    as [Hnd Hiff]; [by vm_compute|].
  split; [exact Hnd|exact (Hiff (3, 3))].
Defined.

(** X6.  On a square board [legal_move] returns true exactly when the target
    is an empty cell of the board, the colour is Black or White after
    trimming, and in at least one of the eight directions a run of one or
    more opponent cells next to the target ends on a cell of the mover's
    colour. *)
Theorem legal_move_iff_bracket (b : board) (colour : string) (x y : Z) :
  square b →
  (legal_move colour (x, y) b = Ok true ↔
     in_bounds (Py.len b) (x - 1) (y - 1) = true ∧
     colour_at b (x - 1, y - 1) = Some "None" ∧
     (Py.strip colour = "Black" ∨ Py.strip colour = "White") ∧
     ∃ d n, d ∈ DIRECTIONS ∧
            bracket b (Py.strip colour) (other_of (Py.strip colour))
              (x - 1) (y - 1) d n).
Proof.
  intros Hsq. rewrite legal_move_true. split.
  - intros (flips & Hf & Hne). destruct flips as [|q flips]; [done|].
    destruct (proj1 (discs_to_flip_elem _ _ _ _ _ Hf q))
      as (Hin & Hc & Hme & d & n & k & Hd & Hbr & _); [left|]. eauto 8.
  - intros (Hin & Hc & Hme & d & n & Hd & Hbr).
    destruct (discs_to_flip_returns b colour (x - 1) (y - 1) Hsq) as [flips Hf].
    exists flips. split; [done|]. intros ->.
    assert ((x - 1 + 1 * d.1, y - 1 + 1 * d.2) ∈ @nil (Z * Z)) as Hq.
    { apply (discs_to_flip_elem _ _ _ _ _ Hf).
      split; [done|]. split; [done|]. split; [done|].
      pose proof Hbr as (Hn & _). exists d, n, 1.
      split; [done|]. split; [done|]. split; [lia|done]. }
    by apply elem_of_nil in Hq.
Qed.

Lemma legal_move_iff_bracket_witness :
  legal_move "Black" (3, 4) standard_board = Ok true ↔
    in_bounds (Py.len standard_board) (3 - 1) (4 - 1) = true ∧
    colour_at standard_board (3 - 1, 4 - 1) = Some "None" ∧
    (Py.strip "Black" = "Black" ∨ Py.strip "Black" = "White") ∧
    ∃ d n, d ∈ DIRECTIONS ∧
           bracket standard_board (Py.strip "Black")
             (other_of (Py.strip "Black")) (3 - 1) (4 - 1) d n.
Proof.
  apply (legal_move_iff_bracket standard_board "Black" 3 4).
  repeat constructor.
Defined.

(** ** The two counts *)

Lemma count_row_total row bk wh :
  count_row row bk wh
    = ((bk + sum_list (black_disc <$> row))%nat,
       (wh + sum_list (white_disc <$> row))%nat).
Proof.
  revert bk wh. induction row as [|c row IH]; intros bk wh; simpl.
  - f_equal; lia.
  - change (list_fmap string nat ?f row) with (f <$> row).
    unfold black_disc at 1, white_disc at 1.
    destruct (String.eqb (Py.strip c) "Black");
      [|destruct (String.eqb (Py.strip c) "White")]; rewrite IH; f_equal; lia.
Qed.

Lemma count_rows_total b bk wh :
  count_rows b bk wh
    = ((bk + total black_disc b)%nat, (wh + total white_disc b)%nat).
Proof.
  revert bk wh. induction b as [|row b IH]; intros bk wh; simpl.
  - unfold total. simpl. f_equal; lia.
  - rewrite count_row_total, IH. unfold total. simpl.
    change (list_fmap _ _ ?f b) with (f <$> b). f_equal; lia.
Qed.

Lemma count_pieces_total b :
  count_pieces b = (total black_disc b, total white_disc b).
Proof. unfold count_pieces. by rewrite count_rows_total. Qed.

Lemma put_at_total (w : string → nat) b p v c :
  cell_at b p = Some c →
  (total w (put_at b p v) + w c = total w b + w v)%nat.
Proof.
  destruct p as [i j]. unfold cell_at, put_at, total. simpl. intros Hc.
  destruct (b !! j) as [row|] eqn:Hr; [|done]. simpl in Hc.
  rewrite list_fmap_insert, list_fmap_insert.
  pose proof (sum_list_insert (w <$> row) i (w c) (w v)) as Hrow.
  rewrite list_lookup_fmap, Hc in Hrow. specialize (Hrow eq_refl).
  pose proof (sum_list_insert ((λ row, sum_list (w <$> row)) <$> b) j
    (sum_list (w <$> row)) (sum_list (<[i := w v]> (w <$> row)))) as Hb.
  rewrite list_lookup_fmap, Hr in Hb. specialize (Hb eq_refl). lia.
Qed.

Lemma sum_list_indicator (P : string → Prop) `{∀ c, Decision (P c)}
    (w : string → nat) (row : list string) :
  (∀ c, w c = if decide (P c) then 1%nat else 0%nat) →
  sum_list (w <$> row) = length (filter P row).
Proof.
  intros Hw. induction row as [|c row IH]; [done|].
  rewrite fmap_cons, filter_cons. simpl. rewrite IH, Hw.
  by destruct (decide (P c)).
Qed.

Lemma total_indicator (P : string → Prop) `{∀ c, Decision (P c)}
    (w : string → nat) (b : board) :
  (∀ c, w c = if decide (P c) then 1%nat else 0%nat) →
  total w b = length (filter P (concat b)).
Proof.
  intros Hw. unfold total. induction b as [|row b IH]; [done|].
  rewrite fmap_cons. simpl. rewrite IH, filter_app, length_app.
  by rewrite (sum_list_indicator P w row Hw).
Qed.

Lemma length_filter_le {A} (P : A → Prop) `{∀ x, Decision (P x)} (l : list A) :
  (length (filter P l) ≤ length l)%nat.
Proof.
  induction l as [|x l IH]; [done|]. rewrite filter_cons.
  destruct (decide (P x)); simpl; lia.
Qed.

(** X7.  [count_pieces] returns the number of cells that read Black and the
    number of cells that read White once trimmed; a cell is never counted
    for both, so the two counts together never exceed the number of
    cells. *)
Theorem count_pieces_counts_cells (b : board) :
  count_pieces b
    = (length (filter (λ c, Py.strip c = "Black") (concat b)),
       length (filter (λ c, Py.strip c = "White") (concat b))) ∧
  ((count_pieces b).1 + (count_pieces b).2 ≤ length (concat b))%nat.
Proof.
  assert (count_pieces b
    = (length (filter (λ c, Py.strip c = "Black") (concat b)),
       length (filter (λ c, Py.strip c = "White") (concat b)))) as Hcount.
  { rewrite count_pieces_total. f_equal; apply total_indicator; intros c.
    - unfold black_disc. destruct (String.eqb_spec (Py.strip c) "Black").
      + by rewrite decide_True.
      + by rewrite decide_False.
    - unfold white_disc. destruct (String.eqb_spec (Py.strip c) "Black") as [E|].
      + rewrite decide_False; [done|]. by rewrite E.
      + destruct (String.eqb_spec (Py.strip c) "White").
        * by rewrite decide_True.
        * by rewrite decide_False. }
  split; [done|]. rewrite Hcount. simpl. clear Hcount.
  induction (concat b) as [|c l IH]; [done|]. rewrite !filter_cons.
  destruct (decide (Py.strip c = "Black")) as [E|];
    destruct (decide (Py.strip c = "White")) as [E'|]; simpl; try lia.
  rewrite E in E'. done.
Qed.

(** ** The score after a legal move *)

(** Writing a value over distinct cells that all weigh [a] moves the total
    by the difference of the weights, once for each cell. *)
Lemma set_cells_total (w : string → nat) (a : nat) b cells v b' :
  (∀ q, q ∈ cells →
     ∃ p c, locate b q.1 q.2 = Some p ∧ cell_at b p = Some c ∧ w c = a) →
  NoDup ((λ q, locate b q.1 q.2) <$> cells) →
  set_cells b cells v = Ok b' →
  (total w b' + length cells * a = total w b + length cells * w v)%nat.
Proof.
  revert b. induction cells as [|[fx fy] cells IH]; intros b Hc Hnd; simpl.
  - intros [= <-]. lia.
  - intros H. apply bind_Ok_inv in H as (b1 & H1 & H).
    apply set_cell_Ok in H1 as (p0 & Hp0 & ->).
    destruct (Hc (fx, fy)) as (p0' & c0 & Hp0' & Hc0 & Hw0); [left|].
    simpl in Hp0'. assert (p0' = p0) as -> by congruence.
    rewrite fmap_cons in Hnd. apply NoDup_cons in Hnd as [Hfresh Hnd].
    simpl in Hfresh.
    pose proof (put_at_total w b p0 v c0 Hc0) as Hput.
    assert (total w b' + length cells * a
            = total w (put_at b p0 v) + length cells * w v)%nat as Hrest;
      [|lia].
    apply IH; [| |done].
    + intros q Hq. destruct (Hc q) as (p & c & Hp & Hcq & Hwq); [by right|].
      exists p, c. rewrite put_at_locate. split; [done|]. split; [|done].
      rewrite put_at_cell by eauto. rewrite decide_False; [done|].
      intros ->. apply Hfresh. rewrite Hp0, <- Hp.
      by apply (list_elem_of_fmap_2 (λ q, locate b q.1 q.2)).
    + erewrite list_fmap_ext; [exact Hnd|].
      intros i q _. apply put_at_locate.
Qed.

(** The parts of a legal move: the flips, the target cell, which is empty,
    and the writes to the flips, which are distinct cells of the opponent's
    colour, none of them the target. *)
Lemma legal_move_anatomy colour x y b :
  legal_move colour (x, y) b = Ok true →
  ∃ flips b' pt c,
    _discs_to_flip b colour (x - 1) (y - 1) = Ok flips ∧
    apply_move colour (x, y) b = Ok (Py.len flips, b') ∧
    cell_at b pt = Some c ∧ Py.strip c = "None" ∧
    (Py.strip colour = "Black" ∨ Py.strip colour = "White") ∧
    set_cells (put_at b pt (piece_of colour)) flips (piece_of colour) = Ok b' ∧
    NoDup ((λ q, locate (put_at b pt (piece_of colour)) q.1 q.2) <$> flips) ∧
    ∀ q, q ∈ flips →
      ∃ p cq, locate (put_at b pt (piece_of colour)) q.1 q.2 = Some p ∧
              cell_at (put_at b pt (piece_of colour)) p = Some cq ∧
              Py.strip cq = other_of (Py.strip colour).
Proof.
  intros Hlegal.
  destruct (apply_move_legal _ _ _ _ Hlegal)
    as (flips & b' & Hf & Hne & Hs & Hap).
  destruct (discs_to_flip_Ok _ _ _ _ _ Hf)
    as [->|([Hx0 Hy0]%in_bounds_spec & (c & Hc & Hcn) & Hme & Hnd & Hq)];
    [done|].
  simpl in Hs. apply bind_Ok_inv in Hs as (b1 & H1 & H2).
  apply set_cell_Ok in H1 as (pt & Hpt & ->).
  destruct (get_cell_position _ _ _ _ (proj1 Hx0) (proj1 Hy0) Hc) as [_ Htloc].
  pose proof Hc as (pt' & Hpt' & Hat)%get_cell_Ok.
  assert (pt' = pt) as -> by congruence.
  assert (other_of (Py.strip colour) ≠ "None") as Hon
    by (by destruct Hme as [-> | ->]).
  assert (∀ q, q ∈ flips →
            0 ≤ q.1 ∧ 0 ≤ q.2 ∧
            locate b q.1 q.2 = Some (Z.to_nat q.1, Z.to_nat q.2) ∧
            (Z.to_nat q.1, Z.to_nat q.2) ≠ pt ∧
            ∃ cq, cell_at b (Z.to_nat q.1, Z.to_nat q.2) = Some cq ∧
                  Py.strip cq = other_of (Py.strip colour)) as Hflip.
  { intros q Hqf.
    destruct (Hq q Hqf) as ([Hqx Hqy]%in_bounds_spec & cq & Hcq & Hsq).
    destruct (get_cell_position _ _ _ _ (proj1 Hqx) (proj1 Hqy) Hcq)
      as [_ Hqloc].
    pose proof Hcq as (pq & Hpq & Hatq)%get_cell_Ok.
    assert (pq = (Z.to_nat q.1, Z.to_nat q.2)) as -> by congruence.
    split; [lia|]. split; [lia|]. split; [done|]. split; [|eauto].
    intros Heq. rewrite Heq in Hatq. congruence. }
  exists flips, b', pt, c. repeat split; try done.
  - apply NoDup_fmap_2_strong; [|done]. intros q q' Hqf Hqf'.
    rewrite !put_at_locate. intros Heq.
    destruct (Hflip q Hqf) as (? & ? & Hl & _).
    destruct (Hflip q' Hqf') as (? & ? & Hl' & _).
    symmetry. apply (nonneg_located_inj b); (done || congruence).
  - intros q Hqf. destruct (Hflip q Hqf) as (_ & _ & Hl & Hnpt & cq & Hatq & Hsq).
    exists (Z.to_nat q.1, Z.to_nat q.2), cq. rewrite put_at_locate.
    split; [done|]. split; [|done].
    rewrite put_at_cell by eauto. by rewrite decide_False.
Qed.

(** X8.  After a legal move of Black, Black has the number of flips plus one
    more discs and White has the number of flips fewer; and the same with
    the colours exchanged after a legal move of White. *)
Theorem apply_move_score (b : board) (colour : string) (x y : Z) :
  colour = "Black" ∨ colour = "White" →
  legal_move colour (x, y) b = Ok true →
  ∃ (flips : list (Z * Z)) (b' : board),
    apply_move colour (x, y) b = Ok (Py.len flips, b') ∧
    flips ≠ [] ∧
    (colour = "Black" →
       (count_pieces b').1 = ((count_pieces b).1 + length flips + 1)%nat ∧
       ((count_pieces b').2 + length flips)%nat = (count_pieces b).2) ∧
    (colour = "White" →
       (count_pieces b').2 = ((count_pieces b).2 + length flips + 1)%nat ∧
       ((count_pieces b').1 + length flips)%nat = (count_pieces b).1).
Proof.
  intros Hcol Hlegal.
  pose proof Hlegal as (flips0 & Hf0 & Hne)%legal_move_true.
  destruct (legal_move_anatomy _ _ _ _ Hlegal)
    as (flips & b' & pt & c & Hf & Hap & Hat & Hcn & _ & Hs & Hnd & Hq).
  assert (flips0 = flips) as -> by congruence.
  exists flips, b'. split; [done|]. split; [done|].
  rewrite !count_pieces_total. simpl.
  assert (black_disc c = 0%nat ∧ white_disc c = 0%nat) as [Hcb Hcw]
    by (unfold black_disc, white_disc; by rewrite Hcn).
  pose proof (put_at_total black_disc b pt (piece_of colour) c Hat) as Hpb.
  pose proof (put_at_total white_disc b pt (piece_of colour) c Hat) as Hpw.
  split; intros ->.
  - pose proof (set_cells_total black_disc 0 _ _ _ _
      ltac:(intros q Hqf; destruct (Hq q Hqf) as (p & cq & Hp & Hc' & Hsq);
            exists p, cq; repeat split; try done;
            unfold black_disc; by rewrite Hsq) Hnd Hs) as Hb.
    pose proof (set_cells_total white_disc 1 _ _ _ _
      ltac:(intros q Hqf; destruct (Hq q Hqf) as (p & cq & Hp & Hc' & Hsq);
            exists p, cq; repeat split; try done;
            unfold white_disc; by rewrite Hsq) Hnd Hs) as Hw.
    change (black_disc (piece_of "Black")) with 1%nat in *.
    change (white_disc (piece_of "Black")) with 0%nat in *.
    lia.
  - pose proof (set_cells_total black_disc 1 _ _ _ _
      ltac:(intros q Hqf; destruct (Hq q Hqf) as (p & cq & Hp & Hc' & Hsq);
            exists p, cq; repeat split; try done;
            unfold black_disc; by rewrite Hsq) Hnd Hs) as Hb.
    pose proof (set_cells_total white_disc 0 _ _ _ _
      ltac:(intros q Hqf; destruct (Hq q Hqf) as (p & cq & Hp & Hc' & Hsq);
            exists p, cq; repeat split; try done;
            unfold white_disc; by rewrite Hsq) Hnd Hs) as Hw.
    change (black_disc (piece_of "White")) with 0%nat in *.
    change (white_disc (piece_of "White")) with 1%nat in *.
    lia.
Qed.

Lemma apply_move_score_witness :
  ∃ (flips : list (Z * Z)) (b' : board),
    apply_move "Black" (3, 4) standard_board = Ok (Py.len flips, b') ∧
    (count_pieces b').1
      = ((count_pieces standard_board).1 + length flips + 1)%nat ∧
    ((count_pieces b').2 + length flips)%nat = (count_pieces standard_board).2.
Proof.
  destruct (apply_move_score standard_board "Black" 3 4)
    as (flips & b' & Ha & _ & Hblack & _).
  - by left.
  - by vm_compute.
  - exists flips, b'. split; [exact Ha|]. by apply Hblack.
Defined.

(** ** The length of a game *)

Lemma discs_total b : discs b = total disc b.
Proof. by rewrite discs_sum. Qed.

Lemma discs_le_cells b : (discs b ≤ cells b)%nat.
Proof.
  rewrite discs_total. unfold total, cells.
  induction b as [|row b IH]; [done|]. rewrite !fmap_cons. simpl.
  assert (sum_list (disc <$> row) ≤ length row)%nat; [|lia].
  clear IH. induction row as [|c row IH]; [done|]. rewrite fmap_cons. simpl.
  assert (disc c ≤ 1)%nat; [|lia]. unfold disc.
  destruct (String.eqb (Py.strip c) "Black"); [lia|].
  destruct (String.eqb (Py.strip c) "White"); lia.
Qed.

Lemma apply_move_adds_disc colour x y b n b' :
  legal_move colour (x, y) b = Ok true →
  apply_move colour (x, y) b = Ok (n, b') →
  discs b' = (discs b + 1)%nat.
Proof.
  intros Hlegal Hap.
  destruct (legal_move_anatomy _ _ _ _ Hlegal)
    as (flips & b'' & pt & c & _ & Hap' & Hat & Hcn & Hme & Hs & Hnd & Hq).
  assert (b'' = b') as -> by congruence.
  rewrite !discs_total.
  pose proof (put_at_total disc b pt (piece_of colour) c Hat) as Hput.
  assert (disc c = 0%nat) as Hc0 by (unfold disc; by rewrite Hcn).
  assert (∀ q, q ∈ flips →
    ∃ p cq, locate (put_at b pt (piece_of colour)) q.1 q.2 = Some p ∧
            cell_at (put_at b pt (piece_of colour)) p = Some cq ∧
            disc cq = 1%nat) as Hq'.
  { intros q Hqf. destruct (Hq q Hqf) as (p & cq & Hp & Hc' & Hsq).
    exists p, cq. split; [done|]. split; [done|].
    unfold disc. rewrite Hsq. by destruct Hme as [-> | ->]. }
  pose proof (set_cells_total disc 1 _ _ _ _ Hq' Hnd Hs) as Htot.
  rewrite disc_piece_of in *. lia.
Qed.

(** X9.  Every legal move adds one disc: after a sequence of moves, each
    legal when it is played, the board has as many more discs as moves were
    played and the same number of cells.  So no such sequence is longer
    than the number of cells without a disc on the board it starts from. *)
Theorem legal_play_length (b : board) (moves : list (string * (Z * Z)))
    (b' : board) :
  legal_play b moves b' →
  discs b' = (discs b + length moves)%nat ∧
  cells b' = cells b ∧
  (length moves + discs b ≤ cells b)%nat.
Proof.
  intros Hplay.
  assert (discs b' = (discs b + length moves)%nat ∧ cells b' = cells b)
    as [Hd Hc].
  { induction Hplay as [b|b colour [x y] n b1 moves b' Hl Ha _ [IHd IHc]].
    - simpl. split; [lia|done].
    - pose proof (apply_move_adds_disc _ _ _ _ _ _ Hl Ha) as Hone.
      apply apply_move_Ok in Ha as (flips & _ & _ & Hs).
      apply set_cells_shape in Hs. unfold cells in *.
      simpl. split; [lia|]. by rewrite IHc, Hs. }
  split; [done|]. split; [done|].
  pose proof (discs_le_cells b'). lia.
Qed.

Lemma legal_play_length_witness :
  ∃ b', legal_play standard_board [("Black", (3, 4))] b' ∧
        discs b' = (discs standard_board + 1)%nat ∧
        (1 + discs standard_board ≤ cells standard_board)%nat.
Proof.
  destruct (apply_move "Black" (3, 4) standard_board) as [[n b']| |] eqn:E;
    [|by vm_compute in E..].
  assert (legal_play standard_board [("Black", (3, 4))] b') as Hplay.
  { eapply play_cons; [by vm_compute|exact E|apply play_nil]. }
  exists b'. split; [exact Hplay|].
  destruct (legal_play_length _ _ _ Hplay) as (Hd & _ & Hle).
  split; [exact Hd|exact Hle].
Defined.

(** ** The opening position of any size *)

Lemma total_replicate_empty (w : string → nat) (n m : nat) :
  w EMPTY = 0%nat → total w (replicate n (replicate m EMPTY)) = 0%nat.
Proof.
  intros Hw. unfold total.
  assert (sum_list (w <$> replicate m EMPTY) = 0%nat) as Hrow.
  { induction m as [|m IH]; [done|]. simpl. rewrite Hw. exact IH. }
  induction n as [|n IH]; [done|]. simpl. rewrite Hrow. exact IH.
Qed.

(** X10.  For every size of at least 2, even or odd, [initialise_board]
    returns a square board of that size with White on the two cells of
    indices (size/2 - 1, size/2 - 1) and (size/2, size/2), Black on the
    two cells (size/2, size/2 - 1) and (size/2 - 1, size/2), and the
    empty value everywhere else; [count_pieces] gives 2 and 2 on it. *)
Theorem initialise_board_layout (size : Z) :
  2 ≤ size →
  ∃ b, initialise_board size = Ok b ∧
       Py.len b = size ∧ square b ∧
       count_pieces b = (2%nat, 2%nat) ∧
       ∀ x y, 0 ≤ x < size → 0 ≤ y < size →
         get_cell b x y =
           Ok (if decide ((x, y) = (size / 2 - 1, size / 2 - 1) ∨
                          (x, y) = (size / 2, size / 2))
               then WHITE
               else if decide ((x, y) = (size / 2, size / 2 - 1) ∨
                               (x, y) = (size / 2 - 1, size / 2))
               then BLACK else EMPTY).
Proof.
  intros Hsize.
  set (n := Z.to_nat size). set (b0 := replicate n (replicate n EMPTY)).
  set (m1 := size / 2 - 1). set (m2 := size / 2).
  assert (0 ≤ m1 ∧ m2 = m1 + 1 ∧ m2 < size) as (Hm1 & Hm2 & Hm2')
    by (subst m1 m2; Z.div_mod_to_equations; lia).
  assert (∀ x y, 0 ≤ x < size → 0 ≤ y < size →
            locate b0 x y = Some (Z.to_nat x, Z.to_nat y)) as Hloc0.
  { intros x y Hx Hy. apply (locate_nonneg b0 x y (replicate n EMPTY)).
    - unfold Py.len, b0. rewrite length_replicate. lia.
    - apply lookup_replicate_2. lia.
    - unfold Py.len. rewrite length_replicate. lia. }
  assert (∀ i j, (i < n)%nat → (j < n)%nat → cell_at b0 (i, j) = Some EMPTY)
    as Hcell0.
  { intros i j Hi Hj. unfold cell_at, b0. simpl.
    rewrite lookup_replicate_2 by done. simpl. by apply lookup_replicate_2. }
  set (p1 := (Z.to_nat m1, Z.to_nat m1)). set (p2 := (Z.to_nat m2, Z.to_nat m2)).
  set (p3 := (Z.to_nat m2, Z.to_nat m1)). set (p4 := (Z.to_nat m1, Z.to_nat m2)).
  set (b1 := put_at b0 p1 WHITE). set (b2 := put_at b1 p2 WHITE).
  set (b3 := put_at b2 p3 BLACK). set (b4 := put_at b3 p4 BLACK).
  assert (cell_at b0 p1 = Some EMPTY ∧ cell_at b0 p2 = Some EMPTY ∧
          cell_at b0 p3 = Some EMPTY ∧ cell_at b0 p4 = Some EMPTY)
    as (Hp1 & Hp2 & Hp3 & Hp4)
    by (repeat split; apply Hcell0; lia).
  assert (p1 ≠ p2 ∧ p1 ≠ p3 ∧ p1 ≠ p4 ∧ p2 ≠ p3 ∧ p2 ≠ p4 ∧ p3 ≠ p4)
    as (H12 & H13 & H14 & H23 & H24 & H34)
    by (subst p1 p2 p3 p4; repeat split; intros [=]; lia).
  assert (∀ q, cell_at b1 q = if decide (q = p1) then Some WHITE
                              else cell_at b0 q) as Hc1
    by (intros q; apply put_at_cell; eauto).
  assert (∀ q, cell_at b2 q = if decide (q = p2) then Some WHITE
                              else cell_at b1 q) as Hc2.
  { intros q. apply put_at_cell. rewrite Hc1, decide_False by done. eauto. }
  assert (∀ q, cell_at b3 q = if decide (q = p3) then Some BLACK
                              else cell_at b2 q) as Hc3.
  { intros q. apply put_at_cell.
    rewrite Hc2, decide_False, Hc1, decide_False by done. eauto. }
  assert (∀ q, cell_at b4 q = if decide (q = p4) then Some BLACK
                              else cell_at b3 q) as Hc4.
  { intros q. apply put_at_cell.
    rewrite Hc3, decide_False, Hc2, decide_False, Hc1, decide_False by done.
    eauto. }
  assert (∀ x y, 0 ≤ x < size → 0 ≤ y < size →
            locate b4 x y = Some (Z.to_nat x, Z.to_nat y)) as Hloc4.
  { intros x y Hx Hy. unfold b4, b3, b2, b1. rewrite !put_at_locate.
    by apply Hloc0. }
  exists b4. split; [|split; [|split; [|split]]].
  - unfold initialise_board. fold n b0 m1 m2.
    rewrite (set_cell_located b0 m1 m1 WHITE p1) by (apply Hloc0; lia).
    simpl. fold b1.
    rewrite (set_cell_located b1 m2 m2 WHITE p2)
      by (unfold b1; rewrite put_at_locate; apply Hloc0; lia).
    simpl. fold b2.
    rewrite (set_cell_located b2 m2 m1 BLACK p3)
      by (unfold b2, b1; rewrite !put_at_locate; apply Hloc0; lia).
    simpl. fold b3.
    rewrite (set_cell_located b3 m1 m2 BLACK p4)
      by (unfold b3, b2, b1; rewrite !put_at_locate; apply Hloc0; lia).
    done.
  - unfold Py.len, b4, b3, b2, b1, b0.
    rewrite !put_at_length, length_replicate. lia.
  - unfold b4, b3, b2, b1. repeat apply put_at_square.
    unfold square, b0. apply Forall_replicate.
    by rewrite !length_replicate.
  - rewrite count_pieces_total.
    assert (∀ w : string → nat, w EMPTY = 0%nat →
      total w b4 = (w WHITE + w WHITE + w BLACK + w BLACK)%nat) as Htot.
    { intros w Hw.
      pose proof (put_at_total w b0 p1 WHITE EMPTY Hp1) as T1.
      pose proof (put_at_total w b1 p2 WHITE EMPTY) as T2.
      rewrite Hc1, decide_False in T2 by done. specialize (T2 Hp2).
      pose proof (put_at_total w b2 p3 BLACK EMPTY) as T3.
      rewrite Hc2, decide_False, Hc1, decide_False in T3 by done.
      specialize (T3 Hp3).
      pose proof (put_at_total w b3 p4 BLACK EMPTY) as T4.
      rewrite Hc3, decide_False, Hc2, decide_False, Hc1, decide_False in T4
        by done.
      specialize (T4 Hp4).
      pose proof (total_replicate_empty w n n Hw) as T0.
      fold b0 in T0. fold b1 in T1. fold b2 in T2. fold b3 in T3.
      fold b4 in T4. lia. }
    by rewrite !Htot.
  - intros x y Hx Hy. apply get_cell_Ok. exists (Z.to_nat x, Z.to_nat y).
    split; [by apply Hloc4|].
    rewrite Hc4, Hc3, Hc2, Hc1, Hcell0 by lia. subst p1 p2 p3 p4.
    fold m1 m2.
    repeat case_decide; try done; exfalso;
      repeat match goal with
             | H : _ ∨ _ |- _ => destruct H
             | H : ¬ (_ ∨ _) |- _ => apply Decidable.not_or in H as [? ?]
             | H : (_, _) = (_, _) |- _ => injection H as ? ?
             end;
      try lia;
      repeat match goal with
             | H : (_, _) ≠ (_, _) |- _ =>
                 apply H; f_equal; lia
             end.
Qed.

Lemma initialise_board_layout_witness :
  ∃ b, initialise_board 5 = Ok b ∧ Py.len b = 5 ∧
       count_pieces b = (2%nat, 2%nat) ∧ get_cell b 1 1 = Ok WHITE.
Proof.
  destruct (initialise_board_layout 5) as (b & Hb & Hlen & _ & Hcount & Hcell);
    [lia|].
  exists b. split; [exact Hb|]. split; [exact Hlen|]. split; [exact Hcount|].
  rewrite (Hcell 1 1) by lia. by vm_compute.
Defined.

(** X11.  For a size of 0 or less [initialise_board] raises [IndexError]:
    the board it builds has no row to put the first disc on.  For size 1
    the four assignments fall on the single cell, and the last one leaves
    a board that is one Black disc. *)
Theorem initialise_board_small (size : Z) :
  (size ≤ 0 → initialise_board size = Raise IndexError) ∧
  (size = 1 → initialise_board size = Ok [[BLACK]]).
Proof.
  split; [|intros ->; by vm_compute].
  intros Hsize. unfold initialise_board.
  replace (Z.to_nat size) with 0%nat by lia. simpl.
  rewrite set_cell_unlocated; [done|]. unfold locate.
  destruct (Py.index (length (@nil (list string))) (size / 2 - 1)) as [j|] eqn:E;
    [|done].
  apply index_lt in E. simpl in E. lia.
Qed.

Lemma initialise_board_small_witness :
  initialise_board (-3) = Raise IndexError ∧ initialise_board 1 = Ok [[BLACK]].
Proof.
  split.
  - apply (initialise_board_small (-3)). lia.
  - by apply (initialise_board_small 1).
Defined.

(** ** The handler of a move *)

(** The next player after a move, from what the scans return. *)
Lemma next_player_after_cases current b oc cc :
  has_any_legal_moves (FlaskEngine.other_colour current) b = Ok oc →
  has_any_legal_moves current b = Ok cc →
  FlaskEngine.next_player_after current b =
    Ok (if oc then FlaskEngine.other_colour current
        else if cc then current else FlaskEngine.other_colour current).
Proof.
  intros Hoc Hcc. unfold FlaskEngine.next_player_after. rewrite Hoc. simpl.
  destruct oc; [done|]. rewrite Hcc. simpl. by destruct cc.
Qed.

Lemma is_game_finished_cases current b oc cc :
  current = "Black" ∨ current = "White" →
  has_any_legal_moves (FlaskEngine.other_colour current) b = Ok oc →
  has_any_legal_moves current b = Ok cc →
  FlaskEngine.is_game_finished b = Ok (negb oc && negb cc).
Proof.
  intros Hcur Hoc Hcc. unfold FlaskEngine.is_game_finished.
  destruct Hcur as [-> | ->];
    [change (FlaskEngine.other_colour "Black") with "White" in Hoc
    |change (FlaskEngine.other_colour "White") with "Black" in Hoc];
    rewrite ?Hoc, ?Hcc; simpl; rewrite ?Hoc, ?Hcc; simpl;
    by destruct oc, cc.
Qed.

(** What [move] does with a legal move in a game that is not finished. *)
Lemma move_legal_unfold b current history x y :
  square b → current = "Black" ∨ current = "White" →
  legal_move current (x, y) b = Ok true →
  ∃ flips b' oc cc,
    apply_move current (x, y) b = Ok (flips, b') ∧
    square b' ∧ length b' = length b ∧
    has_any_legal_moves (FlaskEngine.other_colour current) b' = Ok oc ∧
    has_any_legal_moves current b' = Ok cc ∧
    FlaskEngine.move x y
      (Some {| FlaskEngine.gs_board := b; FlaskEngine.gs_current := current;
               FlaskEngine.gs_move_history := history;
               FlaskEngine.gs_game_finished := false |}) =
      (nt ← FlaskEngine.coord_to_notation x y;
       let next := if oc then FlaskEngine.other_colour current
                   else if cc then current
                   else FlaskEngine.other_colour current in
       Ok ({| FlaskEngine.r_status := "success"; FlaskEngine.r_board := b';
              FlaskEngine.r_current_player := next;
              FlaskEngine.r_notation := Some nt;
              FlaskEngine.r_finished :=
                if negb oc && negb cc
                then Some (FlaskEngine.final_score_of b') else None |},
           {| FlaskEngine.gs_board := b'; FlaskEngine.gs_current := next;
              FlaskEngine.gs_move_history := history ++ [nt];
              FlaskEngine.gs_game_finished := negb oc && negb cc |})).
Proof.
  intros Hsq Hcur Hlegal.
  destruct (apply_move_legal _ _ _ _ Hlegal) as (flips & b' & _ & _ & Hs & Hap).
  pose proof (set_cells_shape _ _ _ _ Hs) as Hshape.
  apply (f_equal length) in Hshape. rewrite !length_fmap in Hshape.
  assert (square b') as Hsq'.
  { apply set_cells_Ok in Hs as (_ & Hsq' & _). by apply Hsq'. }
  destruct (has_any_legal_moves_returns (FlaskEngine.other_colour current) b' Hsq')
    as [oc Hoc].
  destruct (has_any_legal_moves_returns current b' Hsq') as [cc Hcc].
  exists (Py.len flips), b', oc, cc. repeat split; try done.
  unfold FlaskEngine.move. simpl. rewrite Hlegal. simpl. rewrite Hap. simpl.
  destruct (FlaskEngine.coord_to_notation x y) as [nt| |]; simpl; [|done..].
  rewrite (next_player_after_cases _ _ _ _ Hoc Hcc). simpl.
  by rewrite (is_game_finished_cases _ _ _ _ Hcur Hoc Hcc).
Qed.

(** X12.  In a game that is not finished, a move that [legal_move] rejects
    leaves the state as it is and is answered with status "fail", the board
    and the current player, as long as the column is one [chr] accepts
    (-64 <= x < 1114048).  For every other column within the range of a C
    integer the handler raises [ValueError] from [coord_to_notation]: only
    the reading of the parameters is guarded. *)
Theorem move_rejects_illegal_move (gs : FlaskEngine.game_state) (x y : Z) :
  FlaskEngine.gs_game_finished gs = false →
  legal_move (FlaskEngine.gs_current gs) (x, y) (FlaskEngine.gs_board gs)
    = Ok false →
  (-64 ≤ x < 1114048 →
     FlaskEngine.move x y (Some gs) =
       Ok ({| FlaskEngine.r_status := "fail";
              FlaskEngine.r_board := FlaskEngine.gs_board gs;
              FlaskEngine.r_current_player := FlaskEngine.gs_current gs;
              FlaskEngine.r_notation := None;
              FlaskEngine.r_finished := None |}, gs)) ∧
  (¬ (-64 ≤ x < 1114048) → -2147483712 ≤ x ≤ 2147483583 →
     FlaskEngine.move x y (Some gs) =
       Raise (ValueError "chr() arg not in range(0x110000)")).
Proof.
  destruct gs as [b current history finished]. simpl. intros -> Hl.
  unfold FlaskEngine.move. simpl. rewrite Hl. simpl.
  unfold FlaskEngine.coord_to_notation.
  change (Py.ord "A") with 65. split.
  - intros Hx.
    assert ((0 <=? 65 + x - 1) && (65 + x - 1 <? 1114112) = true) as ->; [|done].
    apply andb_true_iff. rewrite Z.leb_le, Z.ltb_lt. lia.
  - intros Hx _.
    assert ((0 <=? 65 + x - 1) && (65 + x - 1 <? 1114112) = false) as ->;
      [|done].
    apply andb_false_iff. rewrite Z.leb_gt, Z.ltb_ge. lia.
Qed.

Lemma move_rejects_illegal_move_witness :
  FlaskEngine.move 1 1
    (Some {| FlaskEngine.gs_board := standard_board;
             FlaskEngine.gs_current := "Black";
             FlaskEngine.gs_move_history := [];
             FlaskEngine.gs_game_finished := false |}) =
    Ok ({| FlaskEngine.r_status := "fail";
           FlaskEngine.r_board := standard_board;
           FlaskEngine.r_current_player := "Black";
           FlaskEngine.r_notation := None;
           FlaskEngine.r_finished := None |},
        {| FlaskEngine.gs_board := standard_board;
           FlaskEngine.gs_current := "Black";
           FlaskEngine.gs_move_history := [];
           FlaskEngine.gs_game_finished := false |}) ∧
  FlaskEngine.move (-100) 1
    (Some {| FlaskEngine.gs_board := standard_board;
             FlaskEngine.gs_current := "Black";
             FlaskEngine.gs_move_history := [];
             FlaskEngine.gs_game_finished := false |}) =
    Raise (ValueError "chr() arg not in range(0x110000)").
Proof.
  split.
  - apply (move_rejects_illegal_move
      {| FlaskEngine.gs_board := standard_board;
         FlaskEngine.gs_current := "Black";
         FlaskEngine.gs_move_history := [];
         FlaskEngine.gs_game_finished := false |} 1 1); [done|by vm_compute|lia].
  - apply (move_rejects_illegal_move
      {| FlaskEngine.gs_board := standard_board;
         FlaskEngine.gs_current := "Black";
         FlaskEngine.gs_move_history := [];
         FlaskEngine.gs_game_finished := false |} (-100) 1);
      [done|by vm_compute|lia|lia].
Defined.

(** X13.  Whatever the coordinate, when [move] answers on a state with a
    square board and a current player that is Black or White, the state it
    leaves has a square board of the same size and a current player that is
    Black or White; the board and the player of the answer are those of the
    state; the history is the old one, or the old one with one notation
    added; and a "fail" answer, or any answer on a finished game, leaves
    the state as it was. *)
Theorem move_keeps_state_wellformed (gs : FlaskEngine.game_state) (x y : Z)
    (resp : FlaskEngine.response) (gs' : FlaskEngine.game_state) :
  square (FlaskEngine.gs_board gs) →
  FlaskEngine.gs_current gs = "Black" ∨ FlaskEngine.gs_current gs = "White" →
  FlaskEngine.move x y (Some gs) = Ok (resp, gs') →
  square (FlaskEngine.gs_board gs') ∧
  length (FlaskEngine.gs_board gs') = length (FlaskEngine.gs_board gs) ∧
  (FlaskEngine.gs_current gs' = "Black" ∨ FlaskEngine.gs_current gs' = "White") ∧
  FlaskEngine.r_board resp = FlaskEngine.gs_board gs' ∧
  FlaskEngine.r_current_player resp = FlaskEngine.gs_current gs' ∧
  (FlaskEngine.gs_move_history gs' = FlaskEngine.gs_move_history gs ∨
   ∃ nt, FlaskEngine.gs_move_history gs'
           = FlaskEngine.gs_move_history gs ++ [nt]) ∧
  (FlaskEngine.r_status resp = "fail" → gs' = gs) ∧
  (FlaskEngine.gs_game_finished gs = true → gs' = gs).
Proof.
  destruct gs as [b current history finished]. simpl. intros Hsq Hcur Hmove.
  destruct finished.
  { unfold FlaskEngine.move in Hmove. simpl in Hmove.
    injection Hmove as <- <-. simpl. repeat split; try done. by left. }
  destruct (legal_move current (x, y) b) as [[|]| |] eqn:Hl.
  - destruct (move_legal_unfold b current history x y Hsq Hcur Hl)
      as (flips & b' & oc & cc & _ & Hsq' & Hlen & _ & _ & Hm).
    rewrite Hm in Hmove.
    destruct (FlaskEngine.coord_to_notation x y) as [nt| |]; [|done..].
    simpl in Hmove. injection Hmove as <- <-. simpl.
    repeat split; try done.
    + destruct Hcur as [-> | ->]; destruct oc, cc; simpl; auto.
    + right. eauto.
  - unfold FlaskEngine.move in Hmove. simpl in Hmove. rewrite Hl in Hmove.
    simpl in Hmove.
    destruct (FlaskEngine.coord_to_notation x y) as [nt| |]; [|done..].
    simpl in Hmove. injection Hmove as <- <-. simpl.
    repeat split; try done. by left.
  - unfold FlaskEngine.move in Hmove. simpl in Hmove. by rewrite Hl in Hmove.
  - unfold FlaskEngine.move in Hmove. simpl in Hmove. by rewrite Hl in Hmove.
Qed.

(** X14.  When [move] accepts a move in a game that is not finished, the
    finished flag it stores is what [is_game_finished] returns on the new
    board, and unless the game is finished the player it names next has a
    legal move: the game never waits for a player who cannot move. *)
Theorem move_names_a_player_who_can_move (gs : FlaskEngine.game_state)
    (x y : Z) (resp : FlaskEngine.response) (gs' : FlaskEngine.game_state) :
  square (FlaskEngine.gs_board gs) →
  FlaskEngine.gs_current gs = "Black" ∨ FlaskEngine.gs_current gs = "White" →
  FlaskEngine.gs_game_finished gs = false →
  FlaskEngine.move x y (Some gs) = Ok (resp, gs') →
  FlaskEngine.r_status resp = "success" →
  legal_move (FlaskEngine.gs_current gs) (x, y) (FlaskEngine.gs_board gs)
    = Ok true ∧
  FlaskEngine.is_game_finished (FlaskEngine.gs_board gs')
    = Ok (FlaskEngine.gs_game_finished gs') ∧
  (FlaskEngine.gs_game_finished gs' = false →
     has_any_legal_moves (FlaskEngine.gs_current gs') (FlaskEngine.gs_board gs')
       = Ok true) ∧
  (FlaskEngine.gs_game_finished gs' = true ↔
     FlaskEngine.r_finished resp
       = Some (FlaskEngine.final_score_of (FlaskEngine.gs_board gs'))).
Proof.
  destruct gs as [b current history finished]. simpl.
  intros Hsq Hcur -> Hmove Hstatus.
  destruct (legal_move current (x, y) b) as [[|]| |] eqn:Hl.
  - destruct (move_legal_unfold b current history x y Hsq Hcur Hl)
      as (flips & b' & oc & cc & _ & Hsq' & _ & Hoc & Hcc & Hm).
    rewrite Hm in Hmove.
    destruct (FlaskEngine.coord_to_notation x y) as [nt| |]; [|done..].
    simpl in Hmove. injection Hmove as <- <-. simpl.
    split; [done|]. split; [by apply (is_game_finished_cases current)|].
    split; [|by destruct oc, cc].
    destruct oc; simpl; [done|]. by destruct cc.
  - unfold FlaskEngine.move in Hmove. simpl in Hmove. rewrite Hl in Hmove.
    simpl in Hmove.
    destruct (FlaskEngine.coord_to_notation x y) as [nt| |]; [|done..].
    simpl in Hmove. injection Hmove as <- <-. done.
  - unfold FlaskEngine.move in Hmove. simpl in Hmove. by rewrite Hl in Hmove.
  - unfold FlaskEngine.move in Hmove. simpl in Hmove. by rewrite Hl in Hmove.
Qed.

Lemma opening_move_answered :
  ∃ resp gs', FlaskEngine.move 3 4 (Some opening_state) = Ok (resp, gs') ∧
              FlaskEngine.r_status resp = "success".
Proof.
  destruct (FlaskEngine.move 3 4 (Some opening_state)) as [[resp gs']| |] eqn:E;
    [|by vm_compute in E..].
  exists resp, gs'. split; [done|]. vm_compute in E. by injection E as <- _.
Qed.

Lemma move_keeps_state_wellformed_witness :
  ∃ resp gs',
    FlaskEngine.move 3 4 (Some opening_state) = Ok (resp, gs') ∧
    square (FlaskEngine.gs_board gs') ∧
    FlaskEngine.r_board resp = FlaskEngine.gs_board gs'.
Proof.
  destruct opening_move_answered as (resp & gs' & Hm & _).
  exists resp, gs'. split; [exact Hm|].
  destruct (move_keeps_state_wellformed opening_state 3 4 resp gs')
    as (Hsq & _ & _ & Hb & _).
  - repeat constructor.
  - by left.
  - exact Hm.
  - split; [exact Hsq|exact Hb].
Defined.

Lemma move_names_a_player_who_can_move_witness :
  ∃ resp gs',
    FlaskEngine.move 3 4 (Some opening_state) = Ok (resp, gs') ∧
    FlaskEngine.is_game_finished (FlaskEngine.gs_board gs')
      = Ok (FlaskEngine.gs_game_finished gs').
Proof.
  destruct opening_move_answered as (resp & gs' & Hm & Hst).
  exists resp, gs'. split; [exact Hm|].
  destruct (move_names_a_player_who_can_move opening_state 3 4 resp gs')
    as (_ & Hfin & _).
  - repeat constructor.
  - by left.
  - reflexivity.
  - exact Hm.
  - exact Hst.
  - exact Hfin.
Defined.

(** ** The parser of the command line, on every input *)

Lemma int_returns_or_value_error s :
  (∃ n, Py.int s = Ok n) ∨ (∃ msg, Py.int s = Raise (ValueError msg)).
Proof.
  unfold Py.int.
  destruct (match Py.int_rskip (Py.int_lskip s) with
            | String "-" rest => option_map Z.opp (Py.int_digits rest false 0)
            | String "+" rest => Py.int_digits rest false 0
            | _ => Py.int_digits (Py.int_rskip (Py.int_lskip s)) false 0
            end) as [n|]; eauto.
Qed.

Lemma char_between_A_H letter :
  Py.char_between "A" letter "H" = true →
  1 ≤ Py.ord letter - Py.ord "A" + 1 ≤ 8.
Proof.
  unfold Py.char_between. change (Py.ord "A") with 65.
  change (Py.ord "H") with 72.
  rewrite andb_true_iff, !Z.leb_le. lia.
Qed.

(** X15.  Whatever the text, a coordinate [parse_letter_number_input]
    returns has its column and its row between 1 and 8; and when the parser
    does not return, it raises [ValueError] with one of its four
    messages. *)
Theorem parse_letter_number_input_range (raw : string) :
  (∀ x y, GameEngine.parse_letter_number_input raw = Ok (x, y) →
          1 ≤ x ≤ 8 ∧ 1 ≤ y ≤ 8) ∧
  ((∃ coord, GameEngine.parse_letter_number_input raw = Ok coord) ∨
   ∃ msg, GameEngine.parse_letter_number_input raw = Raise (ValueError msg) ∧
          msg ∈ [ "Input must contain a letter and a number.";
                  "Column must be a letter from A to H.";
                  "Row must be a number between 1 and 8.";
                  "Row must be between 1 and 8." ]).
Proof.
  unfold GameEngine.parse_letter_number_input.
  set (text := Py.upper (Py.remove_char " " (Py.remove_char "," (Py.strip raw)))).
  destruct (Z.of_nat (String.length text) <? 2) eqn:Hlen.
  { split; [done|]. right. eexists. split; [done|]. left. }
  destruct text as [|letter rest].
  { split; [done|]. right. eexists. split; [done|]. left. }
  destruct (Py.char_between "A" letter "H") eqn:Hletter; simpl.
  2:{ split; [done|]. right. eexists. split; [done|]. right; left. }
  apply char_between_A_H in Hletter.
  destruct (int_returns_or_value_error rest) as [[n ->]|[msg ->]].
  - destruct ((1 <=? n) && (n <=? 8)) eqn:Hrow; simpl.
    + apply andb_true_iff in Hrow as [H1 H8]. apply Z.leb_le in H1, H8.
      split; [|left; eauto]. intros x y [= <- <-]. lia.
    + split; [done|]. right. eexists. split; [done|]. do 3 right; left.
  - split; [done|]. right. eexists. split; [done|]. do 2 right; left.
Qed.

Lemma parse_letter_number_input_range_witness :
  1 ≤ 4 ≤ 8 ∧ 1 ≤ 6 ≤ 8.
Proof.
  apply (proj1 (parse_letter_number_input_range "  d  6 ") 4 6).
  by vm_compute.
Defined.

Lemma one_to_eight (x : Z) :
  1 ≤ x ≤ 8 →
  x = 1 ∨ x = 2 ∨ x = 3 ∨ x = 4 ∨ x = 5 ∨ x = 6 ∨ x = 7 ∨ x = 8.
Proof. lia. Qed.

(** X16.  The notation the web handler builds for a coordinate of the 8x8
    board is read back by the parser of the command line as the same
    coordinate. *)
Theorem notation_round_trip (x y : Z) :
  1 ≤ x ≤ 8 → 1 ≤ y ≤ 8 →
  ∃ nt, FlaskEngine.coord_to_notation x y = Ok nt ∧
        GameEngine.parse_letter_number_input (notation_text nt) = Ok (x, y).
Proof.
  intros Hx Hy. exists (64 + x, y). split.
  - unfold FlaskEngine.coord_to_notation. change (Py.ord "A") with 65.
    assert ((0 <=? 65 + x - 1) && (65 + x - 1 <? 1114112) = true) as ->.
    { apply andb_true_iff. rewrite Z.leb_le, Z.ltb_lt. lia. }
    do 2 f_equal. lia.
  - destruct (one_to_eight x Hx) as [-> | [-> | [-> | [-> | [-> | [-> | [-> | ->]]]]]]];
      destruct (one_to_eight y Hy) as [-> | [-> | [-> | [-> | [-> | [-> | [-> | ->]]]]]]];
      by vm_compute.
Qed.

Lemma notation_round_trip_witness :
  ∃ nt, FlaskEngine.coord_to_notation 3 4 = Ok nt ∧
        GameEngine.parse_letter_number_input (notation_text nt) = Ok (3, 4).
Proof. apply (notation_round_trip 3 4); lia. Defined.

(** ** The prompt of the command line *)

Lemma parse_outcomes raw :
  (∃ x y, GameEngine.parse_letter_number_input raw = Ok (x, y) ∧
          1 ≤ x ≤ 8 ∧ 1 ≤ y ≤ 8) ∨
  (∃ msg, GameEngine.parse_letter_number_input raw = Raise (ValueError msg)).
Proof.
  unfold GameEngine.parse_letter_number_input.
  set (text := Py.upper (Py.remove_char " " (Py.remove_char "," (Py.strip raw)))).
  destruct (Z.of_nat (String.length text) <? 2); [right; eauto|].
  destruct text as [|letter rest]; [right; eauto|].
  destruct (Py.char_between "A" letter "H") eqn:Hletter; simpl;
    [|right; eauto].
  apply char_between_A_H in Hletter.
  destruct (int_returns_or_value_error rest) as [[n ->]|[msg ->]];
    [|right; eauto].
  destruct ((1 <=? n) && (n <=? 8)) eqn:Hrow; simpl; [|right; eauto].
  apply andb_true_iff in Hrow as [H1 H8]. apply Z.leb_le in H1, H8.
  left. eauto 6.
Qed.

(** X17.  [cli_coords_input] answers with the first line that is a quit
    word or that the parser accepts: every line before it is neither, and
    was passed over.  A coordinate it returns comes from that line and has
    its column and row between 1 and 8; it stops with [SystemExit] on a quit
    word, with [EOFError] when the input ends before any answer, and in no
    other way. *)
Theorem cli_coords_input_first_answer (lines : list string) :
  match GameEngine.cli_coords_input lines with
  | GameEngine.Done coord rest =>
      ∃ skipped line,
        lines = skipped ++ line :: rest ∧ Forall skipped_line skipped ∧
        ¬ quit_word line ∧
        GameEngine.parse_letter_number_input (Py.strip line) = Ok coord ∧
        1 ≤ coord.1 ≤ 8 ∧ 1 ≤ coord.2 ≤ 8
  | GameEngine.Stop GameEngine.SystemExit =>
      ∃ skipped line rest,
        lines = skipped ++ line :: rest ∧ Forall skipped_line skipped ∧
        quit_word line
  | GameEngine.Stop GameEngine.EOFError => Forall skipped_line lines
  | GameEngine.Stop _ => False
  end.
Proof.
  induction lines as [|line lines IH]; simpl; [constructor|].
  destruct (bool_decide (Py.lower (Py.strip line) ∈ ["q"; "quit"; "exit"]))
    eqn:Hquit.
  { apply bool_decide_eq_true in Hquit. exists [], line, lines. by repeat split. }
  rewrite bool_decide_eq_false in Hquit.
  destruct (parse_outcomes (Py.strip line))
    as [(x & y & Hp & Hx & Hy)|(msg & Hp)]; rewrite Hp.
  { exists [], line. split; [done|]. split; [constructor|].
    split; [exact Hquit|]. split; [done|]. simpl. lia. }
  assert (skipped_line line) as Hskip by (split; eauto).
  destruct (GameEngine.cli_coords_input lines) as [coord rest|[]].
  - destruct IH as (skipped & line' & -> & Hsk & Hrest).
    exists (line :: skipped), line'. split; [done|]. split; [|done].
    by constructor.
  - destruct IH as (skipped & line' & rest & -> & Hsk & Hq).
    exists (line :: skipped), line', rest. split; [done|]. split; [|done].
    by constructor.
  - by constructor.
  - done.
  - done.
Qed.

(** ** The game loop of the command line *)

Lemma cli_coords_input_consumes lines :
  match GameEngine.cli_coords_input lines with
  | GameEngine.Done _ rest => (length rest < length lines)%nat
  | GameEngine.Stop why =>
      why = GameEngine.SystemExit ∨ why = GameEngine.EOFError
  end.
Proof.
  induction lines as [|line lines IH]; simpl; [by right|].
  destruct (bool_decide (Py.lower (Py.strip line) ∈ ["q"; "quit"; "exit"]));
    [by left|].
  destruct (parse_outcomes (Py.strip line)) as [(x & y & -> & _)|(msg & ->)];
    [lia|].
  destruct (GameEngine.cli_coords_input lines) as [coord rest|why]; [lia|done].
Qed.

(** The inner loop ends with a legal move applied, or with the prompt. *)
Lemma enter_move_spec fuel current b lines :
  square b → (length lines < fuel)%nat →
  match GameEngine.enter_move fuel current b lines with
  | GameEngine.Done (n, b') rest =>
      ∃ coord, legal_move current coord b = Ok true ∧
               apply_move current coord b = Ok (n, b')
  | GameEngine.Stop why =>
      why = GameEngine.SystemExit ∨ why = GameEngine.EOFError
  end.
Proof.
  intros Hsq. revert lines.
  induction fuel as [|fuel IH]; intros lines Hfuel; [lia|]. simpl.
  pose proof (cli_coords_input_consumes lines) as Hcli.
  destruct (GameEngine.cli_coords_input lines) as [[x y] rest|why]; [|done].
  destruct (legal_move_returns current (x, y) b Hsq) as [[|] Hl]; rewrite Hl.
  - destruct (apply_move_legal _ _ _ _ Hl) as (flips & b' & _ & _ & _ & Hap).
    rewrite Hap. eauto.
  - apply IH. lia.
Qed.

Lemma sum_disc_le row : (sum_list (disc <$> row) ≤ length row)%nat.
Proof.
  induction row as [|c row IH]; [done|]. rewrite fmap_cons. simpl.
  assert (disc c ≤ 1)%nat; [|lia]. unfold disc.
  destruct (String.eqb (Py.strip c) "Black"); [lia|].
  destruct (String.eqb (Py.strip c) "White"); lia.
Qed.

Lemma sum_disc_full row c :
  sum_list (disc <$> row) = length row → c ∈ row → disc c = 1%nat.
Proof.
  induction row as [|c' row IH]; [by intros _ ?%elem_of_nil|].
  rewrite fmap_cons. simpl. intros Hsum.
  pose proof (sum_disc_le row) as Hle.
  assert (disc c' ≤ 1)%nat as Hc'.
  { unfold disc. destruct (String.eqb (Py.strip c') "Black"); [lia|].
    destruct (String.eqb (Py.strip c') "White"); lia. }
  intros [->|Hc]%elem_of_cons; [lia|]. apply IH; [lia|done].
Qed.

(** On a board with as many discs as cells no cell is empty. *)
Lemma discs_full b row c :
  discs b = cells b → row ∈ b → c ∈ row → Py.strip c ≠ "None".
Proof.
  rewrite discs_total. unfold total, cells. intros Hfull Hrow Hc.
  assert (disc c = 1%nat) as Hd.
  { revert Hfull Hrow. induction b as [|row' b IH]; [by intros _ ?%elem_of_nil|].
    rewrite !fmap_cons. simpl. intros Hsum.
    pose proof (sum_disc_le row') as Hle.
    pose proof (discs_le_cells b) as Hle'. rewrite discs_total in Hle'.
    unfold total, cells in Hle'.
    intros [->|Hrow]%elem_of_cons.
    - apply (sum_disc_full row'); [lia|done].
    - apply IH; [lia|done]. }
  intros Hnone. unfold disc in Hd. by rewrite Hnone in Hd.
Qed.

Lemma no_empty_cell_no_move b colour :
  square b →
  (∀ row c, row ∈ b → c ∈ row → Py.strip c ≠ "None") →
  has_any_legal_moves colour b = Ok false.
Proof.
  intros Hsq Hfull. unfold has_any_legal_moves. apply scan_rows_false.
  intros x y. apply legal_move_false.
  destruct (in_bounds (Py.len b) (x - 1) (y - 1)) eqn:Hin; [right|by left].
  unfold _discs_to_flip. rewrite Hin. simpl.
  destruct (square_get_cell _ _ _ Hsq Hin) as [c Hc]. rewrite Hc. simpl.
  destruct (get_cell_elem _ _ _ _ Hc) as (row & Hrow & Hcr).
  apply (Hfull _ _ Hrow), String.eqb_neq in Hcr. by rewrite Hcr.
Qed.

Lemma player_to_move_spec current b :
  square b → current = "Black" ∨ current = "White" →
  ∃ r, GameEngine.player_to_move current b = Ok r ∧
       match r with
       | None => has_any_legal_moves "Black" b = Ok false ∧
                 has_any_legal_moves "White" b = Ok false
       | Some player => player = "Black" ∨ player = "White"
       end.
Proof.
  intros Hsq Hcur. unfold GameEngine.player_to_move.
  destruct (has_any_legal_moves_returns current b Hsq) as [[|] Hc];
    rewrite Hc; simpl; [eauto|].
  destruct (has_any_legal_moves_returns (GameEngine.other_colour current) b Hsq)
    as [[|] Ho]; rewrite Ho; simpl.
  - eexists. split; [done|]. destruct Hcur as [-> | ->]; simpl; auto.
  - eexists. split; [done|].
    destruct Hcur as [-> | ->];
      [change (GameEngine.other_colour "Black") with "White" in Ho
      |change (GameEngine.other_colour "White") with "Black" in Ho]; done.
Qed.

#[local] Arguments GameEngine.enter_move : simpl never.
#[local] Arguments GameEngine.player_to_move : simpl never.

(** The outer loop, from a board that lacks as many discs as moves are
    left: it ends on a position reached by legal moves where neither colour
    can move, or with the prompt. *)
Lemma game_loop_spec remaining b current lines :
  square b → current = "Black" ∨ current = "White" →
  (discs b + remaining = cells b)%nat →
  match GameEngine.game_loop remaining b current lines with
  | GameEngine.Done b' rest =>
      ∃ moves, legal_play b moves b' ∧ (length moves ≤ remaining)%nat ∧
               has_any_legal_moves "Black" b' = Ok false ∧
               has_any_legal_moves "White" b' = Ok false
  | GameEngine.Stop why =>
      why = GameEngine.SystemExit ∨ why = GameEngine.EOFError
  end.
Proof.
  revert b current lines.
  induction remaining as [|remaining IH]; intros b current lines Hsq Hcur Hfull.
  - simpl. exists []. split; [constructor|]. split; [done|].
    split; apply no_empty_cell_no_move; try done;
      intros row c; apply discs_full; lia.
  - simpl.
    destruct (player_to_move_spec current b Hsq Hcur) as ([player|] & -> & Hp).
    2:{ exists []. split; [constructor|]. split; [simpl; lia|done]. }
    pose proof (enter_move_spec (S (length lines)) player b lines Hsq
                  ltac:(lia)) as Hmove.
    destruct (GameEngine.enter_move (S (length lines)) player b lines)
      as [[n b'] rest|why]; [|exact Hmove].
    destruct Hmove as ([x y] & Hl & Ha).
    pose proof (apply_move_adds_disc _ _ _ _ _ _ Hl Ha) as Hone.
    pose proof Ha as (flips & _ & _ & Hs)%apply_move_Ok.
    pose proof (set_cells_shape _ _ _ _ Hs) as Hshape.
    assert (square b') as Hsq'.
    { apply set_cells_Ok in Hs as (_ & Hsq' & _). by apply Hsq'. }
    assert (cells b' = cells b) as Hcells by (unfold cells; by rewrite Hshape).
    assert (legal_play b [(player, (x, y))] b') as Hplay1.
    { eapply play_cons; [exact Hl|exact Ha|constructor]. }
    destruct remaining as [|remaining].
    + exists [(player, (x, y))]. split; [done|]. split; [done|].
      split; apply no_empty_cell_no_move; try done;
        intros row c; apply discs_full; lia.
    + specialize (IH b' (GameEngine.other_colour player) rest Hsq'
        ltac:(destruct Hp as [-> | ->]; simpl; auto) ltac:(lia)).
      destruct (GameEngine.game_loop (S remaining) b'
                  (GameEngine.other_colour player) rest) as [b'' rest'|why];
        [|exact IH].
      destruct IH as (moves & Hplay & Hlen & Hfin).
      exists ((player, (x, y)) :: moves). split.
      * eapply play_cons; [exact Hl|exact Ha|exact Hplay].
      * split; [simpl; lia|done].
Qed.

Lemma legal_play_discs b moves b' :
  legal_play b moves b' → discs b' = (discs b + length moves)%nat.
Proof.
  induction 1 as [b|b colour [x y] n b1 moves b' Hl Ha _ IH]; simpl; [lia|].
  pose proof (apply_move_adds_disc _ _ _ _ _ _ Hl Ha). lia.
Qed.

(** X18.  [simple_game_loop] stops only because the user quits or the input
    ends.  When it announces a result, the final position was reached from
    the opening position by at most 60 moves that were all legal when
    played, neither Black nor White has a legal move on it, the counts it
    reports are those of [count_pieces] and add up to 4 plus the number of
    moves, and the winner it names is the colour with strictly more discs,
    or a draw. *)
Theorem simple_game_loop_ends_on_finished_game (lines : list string) :
  match GameEngine.simple_game_loop lines with
  | GameEngine.Done r rest =>
      ∃ moves,
        legal_play standard_board moves (GameEngine.gr_board r) ∧
        (length moves ≤ 60)%nat ∧
        has_any_legal_moves "Black" (GameEngine.gr_board r) = Ok false ∧
        has_any_legal_moves "White" (GameEngine.gr_board r) = Ok false ∧
        (GameEngine.gr_black r, GameEngine.gr_white r)
          = count_pieces (GameEngine.gr_board r) ∧
        (GameEngine.gr_black r + GameEngine.gr_white r
           = 4 + length moves)%nat ∧
        GameEngine.gr_winner r =
          (if (GameEngine.gr_white r <? GameEngine.gr_black r)%nat
           then "Black wins!"
           else if (GameEngine.gr_black r <? GameEngine.gr_white r)%nat
           then "White wins!" else "It's a draw!")
  | GameEngine.Stop why =>
      why = GameEngine.SystemExit ∨ why = GameEngine.EOFError
  end.
Proof.
  unfold GameEngine.simple_game_loop.
  change (initialise_board BOARD_SIZE_DEFAULT) with (initialise_board 8).
  rewrite initialise_board_8.
  assert (square standard_board) as Hsq by (repeat constructor).
  assert ((discs standard_board + 60)%nat = cells standard_board) as Hfull
    by (by vm_compute).
  pose proof (game_loop_spec 60 standard_board "Black" lines Hsq
                (or_introl eq_refl) Hfull) as Hloop.
  destruct (GameEngine.game_loop 60 standard_board "Black" lines)
    as [b' rest|why]; [|exact Hloop].
  destruct Hloop as (moves & Hplay & Hlen & Hb & Hw).
  pose proof (legal_play_discs _ _ _ Hplay) as Hdiscs.
  change (discs standard_board) with 4%nat in Hdiscs. unfold discs in Hdiscs.
  destruct (count_pieces b') as [black white] eqn:Hcount. simpl in *.
  exists moves. rewrite Hcount. repeat split; try done.
Qed.
